(** * Verification of two utility modules of rasa

    - [Jobs]: [rasa/core/jobs.py], the process-wide lazily created
      scheduler ([scheduler], [kill_scheduler]).
    - [Dialogflow]: [rasa/nlu/training_data/formats/dialogflow.py], the reader
      of Dialogflow exports ([DialogflowReader]).

    Both modules are embedded shallowly: Python functions become Rocq
    functions, the module-level global and the calls into libraries become
    explicit state, events and outcomes. *)

From stdpp Require Import base option list strings gmap.
From Stdlib Require Import ZArith Lia Ascii.

Open Scope string_scope.
Open Scope list_scope.

(** * rasa/core/jobs.py *)

Module Jobs.

(** An asyncio event loop is known by its identity only. *)
Definition loop := nat.

(** The [timezone] argument of the scheduler's constructor: it is either left
    out ([None], the library resolves the local zone) or [pytz.utc]. *)
Inductive tzinfo := utc.

(** Python objects live in a heap and are handled by reference; two
    references are the same instance iff they are equal. *)
Definition ref := nat.

(** What the module reads of an [AsyncIOScheduler] instance. *)
Record AsyncIOScheduler := mkScheduler {
  _eventloop : loop;
  timezone : option tzinfo;
  running : bool
}.

(** The heap of scheduler instances (a reference is an index; an instance is
    allocated at the end) and the module-level global [__scheduler]. *)
Record State := mkState {
  heap : list AsyncIOScheduler;
  __scheduler : option ref
}.

Definition initial : State := mkState [] None.

Inductive exn :=
| UnknownTimeZoneError
| RuntimeError (msg : string)
| LibraryError (code : nat).

Inductive result (A : Type) :=
| Return (a : A)
| Raise (e : exn).
Arguments Return {A} a.
Arguments Raise {A} e.

(** What a call does to the outside: constructor calls, [start], [shutdown]
    and [warnings.warn], in order. *)
Inductive event :=
| EvInit (event_loop : loop) (tz : option tzinfo)
| EvStart (r : ref)
| EvShutdown (r : ref)
| EvWarn (msg : string).

(** The surroundings of one call: the loop [asyncio.get_event_loop()] answers
    with, and for each call into apscheduler whether it raises ([Some e]) or
    returns ([None]). *)
Record Env := mkEnv {
  get_event_loop : loop;
  init_raises : option tzinfo -> option exn;
  start_raises : ref -> option exn;
  shutdown_raises : ref -> option exn
}.

(** ** A state, trace and exception monad *)

Definition M (A : Type) := State -> result A * State * list event.

Definition ret {A} (a : A) : M A := fun st => (Return a, st, []).
Definition raise {A} (e : exn) : M A := fun st => (Raise e, st, []).
Definition bind {A B} (m : M A) (k : A -> M B) : M B := fun st =>
  match m st with
  | (Return a, st1, t1) =>
      let '(r, st2, t2) := k a st1 in (r, st2, t1 ++ t2)
  | (Raise e, st1, t1) => (Raise e, st1, t1)
  end.

Notation "'let*' x ':=' m 'in' k" := (bind m (fun x => k))
  (at level 10, x name, m at level 100, k at level 200).
Notation "'do' m 'then' k" := (bind m (fun _ => k))
  (at level 10, m at level 100, k at level 200).

(** [try: body except UnknownTimeZoneError: handler]. The state and the trace
    the body left behind stay; any other exception goes through. *)
Definition try_except_UnknownTimeZoneError {A} (body handler : M A) : M A :=
  fun st =>
    match body st with
    | (Raise UnknownTimeZoneError, st1, t1) =>
        let '(r, st2, t2) := handler st1 in (r, st2, t1 ++ t2)
    | other => other
    end.

Definition tell (e : event) : M unit := fun st => (Return tt, st, [e]).
Definition read_global : M (option ref) := fun st => (Return (__scheduler st), st, []).
Definition write_global (g : option ref) : M unit :=
  fun st => (Return tt, mkState (heap st) g, []).

(** [r._eventloop]. A dangling reference does not occur (see [wf]); it
    is given a [LibraryError] to keep the function total. *)
Definition attr_eventloop (r : ref) : M loop := fun st =>
  match heap st !! r with
  | Some s => (Return (_eventloop s), st, [])
  | None => (Raise (LibraryError 0), st, [])
  end.

Definition set_running (b : bool) (s : AsyncIOScheduler) : AsyncIOScheduler :=
  mkScheduler (_eventloop s) (timezone s) b.

(** [AsyncIOScheduler(event_loop=lp, timezone=tz)]: a new instance, or the
    exception the constructor raises. *)
Definition new_AsyncIOScheduler (env : Env) (lp : loop) (tz : option tzinfo) : M ref :=
  do tell (EvInit lp tz) then
  match init_raises env tz with
  | Some e => raise e
  | None => fun st =>
      (Return (length (heap st)),
       mkState (heap st ++ [mkScheduler lp tz false]) (__scheduler st), [])
  end.

(** [r.start()]. *)
Definition start (env : Env) (r : ref) : M unit :=
  do tell (EvStart r) then
  match start_raises env r with
  | Some e => raise e
  | None => fun st =>
      (Return tt, mkState (alter (set_running true) r (heap st)) (__scheduler st), [])
  end.

(** [r.shutdown()]. *)
Definition shutdown (env : Env) (r : ref) : M unit :=
  do tell (EvShutdown r) then
  match shutdown_raises env r with
  | Some e => raise e
  | None => fun st =>
      (Return tt, mkState (alter (set_running false) r (heap st)) (__scheduler st), [])
  end.

(** The double-quote character of the warning's text. *)
Definition dquote : string := String (Ascii.ascii_of_nat 34) EmptyString.

Definition timezone_warning : string :=
  "apscheduler could not find a timezone and is defaulting to utc. This is probably because your system timezone is not set. Set it with e.g. echo "
  +:+ dquote +:+ "Europe/Berlin" +:+ dquote +:+ " > /etc/timezone".

Definition inconsistent_loop_message : string :=
  "Detected inconsistent loop usage. Trying to schedule a task on a new event loop, but scheduler was created with a different event loop. Make sure there is only one event loop in use and that the scheduler is running on that one.".

(** ** The module's two functions *)

(** [async def scheduler()]. An instance is truthy, so [not __scheduler]
    holds exactly when the global is [None]. *)
Definition scheduler (env : Env) : M ref :=
  let* g := read_global in
  match g with
  | None =>
      try_except_UnknownTimeZoneError
        (let* s := new_AsyncIOScheduler env (get_event_loop env) None in
         do write_global (Some s) then
         do start env s then
         ret s)
        (do tell (EvWarn timezone_warning) then
         let* s := new_AsyncIOScheduler env (get_event_loop env) (Some utc) in
         do write_global (Some s) then
         do start env s then
         ret s)
  | Some s =>
      let* lp := attr_eventloop s in
      if Nat.eqb lp (get_event_loop env) then ret s
      else raise (RuntimeError inconsistent_loop_message)
  end.

(** [def kill_scheduler()]. *)
Definition kill_scheduler (env : Env) : M unit :=
  let* g := read_global in
  match g with
  | Some s =>
      do shutdown env s then
      write_global None
  | None => ret tt
  end.

(** ** Running the module from its initial state *)

Inductive call :=
| CallScheduler (env : Env)
| CallKill (env : Env).

(** One call: the state it leaves and the instance it handed out, if any. *)
Definition exec (c : call) (st : State) : State * list ref :=
  match c with
  | CallScheduler env =>
      match scheduler env st with
      | (Return r, st', _) => (st', [r])
      | (Raise _, st', _) => (st', [])
      end
  | CallKill env => let '(_, st', _) := kill_scheduler env st in (st', [])
  end.

(** A sequence of calls: the final state and every instance handed out. *)
Fixpoint run (cs : list call) (st : State) : State * list ref :=
  match cs with
  | [] => (st, [])
  | c :: cs' =>
      let '(st1, rs1) := exec c st in
      let '(st2, rs2) := run cs' st1 in
      (st2, rs1 ++ rs2)
  end.

(** The constructor calls of a trace, by their [timezone] argument. *)
Definition inits (t : list event) : list (option tzinfo) :=
  omap (fun e => match e with EvInit _ tz => Some tz | _ => None end) t.

Definition warnings (t : list event) : list string :=
  omap (fun e => match e with EvWarn msg => Some msg | _ => None end) t.

(** What the first attempt (constructor without time zone, then [start]) does
    when the heap holds [n] instances: the exception it raises, if any. *)
Definition first_attempt (env : Env) (n : nat) : option exn :=
  match init_raises env None with
  | Some e => Some e
  | None => start_raises env n
  end.

(** The reference the instance of the second attempt gets. *)
Definition utc_ref (env : Env) (n : nat) : ref :=
  match init_raises env None with
  | Some _ => n
  | None => S n
  end.

(** What the second attempt (constructor with [utc], then [start]) does. *)
Definition utc_attempt (env : Env) (n : nat) : option exn :=
  match init_raises env (Some utc) with
  | Some e => Some e
  | None => start_raises env (utc_ref env n)
  end.

(** Construction goes through: at once, or by the fallback. *)
Definition construction_succeeds (env : Env) (n : nat) : Prop :=
  first_attempt env n = None \/
  (first_attempt env n = Some UnknownTimeZoneError /\ utc_attempt env n = None).

(** The global, when set, refers to an instance of the heap. *)
Definition wf (st : State) : Prop :=
  forall r, __scheduler st = Some r -> r < length (heap st).

(** ** Concrete surroundings and states *)

(** Every library call returns; the current loop is loop 1, or loop 2. *)
Definition env_loop1 : Env :=
  mkEnv 1 (fun _ => None) (fun _ => None) (fun _ => None).
Definition env_loop2 : Env :=
  mkEnv 2 (fun _ => None) (fun _ => None) (fun _ => None).

(** The local time zone is not found; with [utc] all goes well. *)
Definition env_no_tz : Env :=
  mkEnv 1 (fun tz => match tz with None => Some UnknownTimeZoneError | Some _ => None end)
    (fun _ => None) (fun _ => None).

(** One running instance, bound to loop 1, held by the global. *)
Definition st_live : State := mkState [mkScheduler 1 None true] (Some 0).

(** A first call of [scheduler] on loop 1. *)
Definition history_one : list call := [CallScheduler env_loop1].

(** ** Histories and surroundings of the further properties *)

(** A history that never calls [kill_scheduler]. *)
Definition kill_free (history : list call) : Prop :=
  Forall (fun c => match c with CallScheduler _ => True | CallKill _ => False end)
    history.

(** [start] fails with an error of the library; all else returns. *)
Definition env_start_fails : Env :=
  mkEnv 1 (fun _ => None) (fun _ => Some (LibraryError 7)) (fun _ => None).

(** The constructor fails with an error of the library. *)
Definition env_init_fails : Env :=
  mkEnv 1 (fun _ => Some (LibraryError 7)) (fun _ => None) (fun _ => None).

(** [shutdown] fails with an error of the library. *)
Definition env_shutdown_fails : Env :=
  mkEnv 1 (fun _ => None) (fun _ => None) (fun _ => Some (LibraryError 7)).

(** Two calls of [scheduler] on loop 1, then one on loop 2. *)
Definition history_three : list call :=
  [CallScheduler env_loop1; CallScheduler env_loop1; CallScheduler env_loop2].

End Jobs.

(** * rasa/nlu/training_data/formats/dialogflow.py *)

Module Dialogflow.

Definition DIALOGFLOW_PACKAGE : string := "dialogflow_package".
Definition DIALOGFLOW_AGENT : string := "dialogflow_agent".
Definition DIALOGFLOW_INTENT : string := "dialogflow_intent".
Definition DIALOGFLOW_INTENT_EXAMPLES : string := "dialogflow_intent_examples".
Definition DIALOGFLOW_ENTITIES : string := "dialogflow_entities".
Definition DIALOGFLOW_ENTITY_ENTRIES : string := "dialogflow_entity_entries".

Inductive exn :=
| KeyError (key : string)
| ValueError (msg : string)
| ReadError (code : nat)
| NotImplementedError.

Inductive result (A : Type) :=
| Return (a : A)
| Raise (e : exn).
Arguments Return {A} a.
Arguments Raise {A} e.

Definition rbind {A B} (m : result A) (k : A -> result B) : result B :=
  match m with
  | Return a => k a
  | Raise e => Raise e
  end.

Notation "'let?' x ':=' m 'in' k" := (rbind m (fun x => k))
  (at level 10, x name, m at level 100, k at level 200).

(** ** Python values *)

(** A Python dict with string keys, read at keys that hold strings: a
    chunk ([text], [meta], [alias]), the root record ([name]) and the
    keyword arguments of [read] ([language], [fformat]). A key is present
    iff the lookup is [Some]. *)
Abbreviation dict := (gmap string string).

(** [k in d] *)
Definition contains (k : string) (d : dict) : bool := bool_decide (is_Some (d !! k)).

(** [d[k]] *)
Definition getitem (d : dict) (k : string) : result string :=
  match d !! k with
  | Some v => Return v
  | None => Raise (KeyError k)
  end.

(** [d.get(k)], with [None] for Python's [None]. *)
Definition get (d : dict) (k : string) : option string := d !! k.

(** [d.get(k, dflt)], called with [dflt] already evaluated. *)
Definition get_default (d : dict) (k : string) (dflt : string) : string :=
  default dflt (d !! k).

(** [len(s)]: strings are sequences of characters, one [ascii] each. *)
Definition len (s : string) : Z := Z.of_nat (String.length s).

(** [sub in s] on strings. *)
Fixpoint str_in (sub s : string) : bool :=
  String.prefix sub s ||
  match s with
  | EmptyString => false
  | String _ s' => str_in sub s'
  end.

(** [s.replace(old, new)] scans [s] from the left; [skip] counts the
    characters of a match that are still to be dropped. *)
Fixpoint replace_from (old new : string) (skip : nat) (s : string) : string :=
  match s with
  | EmptyString => EmptyString
  | String c s' =>
      match skip with
      | S k => replace_from old new k s'
      | O =>
          if String.prefix old s
          then new +:+ replace_from old new (String.length old - 1) s'
          else String c (replace_from old new 0 s')
      end
  end.

(** With an empty [old], Python puts [new] around every character. *)
Fixpoint intersperse (new s : string) : string :=
  match s with
  | EmptyString => new
  | String c s' => new +:+ String c (intersperse new s')
  end.

Definition replace (s old new : string) : string :=
  match old with
  | EmptyString => intersperse new s
  | _ => replace_from old new 0 s
  end.

(** An example record of the examples file: a JSON object read at the keys
    ["data"] (a list of chunks) and ["synonyms"] (a list of strings); a field
    is [None] when the key is absent. *)
Record example_js := mkExample {
  ex_data : option (list dict);
  ex_synonyms : option (list string)
}.

(** Modelled from the spec: [rasa.nlu.utils.build_entity] is not under src/.
    An entity span holds a start offset, an end offset, the covered text and
    the entity type label; [build_entity start end text entity_type] makes
    one from its four arguments. *)
Record entity := build_entity {
  span_start : Z;
  span_end : Z;
  span_text : string;
  span_type : string
}.

(** Modelled from the spec: [rasa.nlu.training_data.Message] is not
    under src/. A training example holds a text, an optional intent label
    and a list of entity spans; [Message.build(text, intent, entities)]. *)
Record Message := Message_build {
  msg_text : string;
  msg_intent : option string;
  msg_entities : list entity
}.

Record lookup_table := mkLookup {
  lt_name : option string;
  lt_elements : list string
}.

(** Modelled from the spec: [rasa.nlu.training_data.TrainingData] is not
    under src/. A batch keeps the constructor's four positional arguments;
    an argument left out is [None]. *)
Record TrainingData := mkTrainingData {
  training_examples : option (list Message);
  entity_synonyms : option (gmap string string);
  regex_features : option (list dict);
  lookup_tables : option (list lookup_table)
}.

(** [TrainingData()], the empty batch. *)
Definition TrainingData_empty : TrainingData := mkTrainingData None None None None.

(** ** Effects *)

Inductive event :=
| EvReadJson (fn : string)
| EvIsFile (fn : string)
| EvWarn (msg : string).

(** What the reader calls outside src/: [os.path.isfile],
    [rasa.utils.io.read_json_file], whose result is typed by the place of
    the call (the root record, or the list of example records), and
    [rasa.nlu.training_data.util.transform_entity_synonyms]. *)
Record Externals := mkExternals {
  isfile : string -> bool;
  read_root_json : string -> result dict;
  read_examples_json : string -> result (list example_js);
  transform_entity_synonyms : list example_js -> gmap string string
}.

(** A trace and exception monad. *)
Definition IO (A : Type) := (list event * result A)%type.

Definition ret {A} (a : A) : IO A := ([], Return a).
Definition raise {A} (e : exn) : IO A := ([], Raise e).
Definition lift {A} (r : result A) : IO A := ([], r).
Definition tell (e : event) : IO unit := ([e], Return tt).
Definition bind {A B} (m : IO A) (k : A -> IO B) : IO B :=
  match m with
  | (t1, Return a) => let '(t2, r) := k a in (t1 ++ t2, r)
  | (t1, Raise e) => (t1, Raise e)
  end.

Notation "'let*' x ':=' m 'in' k" := (bind m (fun x => k))
  (at level 10, x name, m at level 100, k at level 200).
Notation "'do' m 'then' k" := (bind m (fun _ => k))
  (at level 10, m at level 100, k at level 200).

Definition trace {A} (m : IO A) : list event := fst m.
Definition outcome {A} (m : IO A) : result A := snd m.

Definition os_path_isfile (w : Externals) (fn : string) : IO bool :=
  do tell (EvIsFile fn) then ret (isfile w fn).

Definition read_json_file_root (w : Externals) (fn : string) : IO dict :=
  do tell (EvReadJson fn) then lift (read_root_json w fn).

Definition read_json_file_examples (w : Externals) (fn : string) : IO (list example_js) :=
  do tell (EvReadJson fn) then lift (read_examples_json w fn).

Definition warn (msg : string) : IO unit := tell (EvWarn msg).

(** ** class DialogflowReader *)

Definition ignore_marker : string := "@sys.ignore".

(** [_extract_entity(chunk, current_offset)]. The default of
    [chunk.get("alias", chunk["meta"])] is an argument: [chunk["meta"]] is
    evaluated before [get] is called. *)
Definition _extract_entity (chunk : dict) (current_offset : Z) : result (option entity) :=
  if contains "meta" chunk || contains "alias" chunk then
    let start := current_offset in
    let? text := getitem chunk "text" in
    let? meta := getitem chunk "meta" in
    let entity_type := get_default chunk "alias" meta in
    if negb (String.eqb entity_type ignore_marker) then
      let end_ := (start + len text)%Z in
      Return (Some (build_entity start end_ text entity_type))
    else Return None
  else Return None.

(** The loop of [_join_text_chunks], with its two accumulators. A span is a
    non-empty dict, hence truthy: [if entity := ...] appends every span. *)
Fixpoint join_loop (chunks : list dict) (utterance : string) (entities : list entity)
  : result (string * list entity) :=
  match chunks with
  | [] => Return (utterance, entities)
  | chunk :: rest =>
      let? entity := _extract_entity chunk (len utterance) in
      let entities' :=
        match entity with
        | Some e => entities ++ [e]
        | None => entities
        end in
      let? text := getitem chunk "text" in
      join_loop rest (utterance +:+ text) entities'
  end.

Definition _join_text_chunks (chunks : list dict) : result (string * list entity) :=
  join_loop chunks "" [].

(** The loop of [_read_intent]. *)
Fixpoint intent_loop (intent : option string) (examples_js : list example_js)
    (training_examples : list Message) : result (list Message) :=
  match examples_js with
  | [] => Return training_examples
  | ex :: rest =>
      let? data :=
        match ex_data ex with
        | Some d => Return d
        | None => Raise (KeyError "data")
        end in
      let? te := _join_text_chunks data in
      intent_loop intent rest
        (training_examples ++ [Message_build (fst te) intent (snd te)])
  end.

Definition _read_intent (intent_js : dict) (examples_js : list example_js)
  : result TrainingData :=
  let intent := get intent_js "name" in
  let? training_examples := intent_loop intent examples_js [] in
  Return (mkTrainingData (Some training_examples) None None None).

Definition _flatten {A} (list_of_lists : list (list A)) : list A :=
  concat list_of_lists.

(** [_extract_lookup_tables(name, examples)]; [omap ex_synonyms] is
    [[e["synonyms"] for e in examples if "synonyms" in e]]. *)
Definition _extract_lookup_tables (name : option string) (examples : list example_js)
  : option (list lookup_table) :=
  let synonyms := omap ex_synonyms examples in
  let synonyms := _flatten synonyms in
  let elements := filter (fun synonym => negb (str_in "@" synonym) = true) synonyms in
  match elements with
  | [] => None
  | _ => Some [mkLookup name elements]
  end.

Definition _read_entities (w : Externals) (entity_js : dict) (examples_js : list example_js)
  : TrainingData :=
  let entity_synonyms := transform_entity_synonyms w examples_js in
  let name := get entity_js "name" in
  let lookup_tables := _extract_lookup_tables name examples_js in
  mkTrainingData (Some []) (Some entity_synonyms) (Some []) lookup_tables.

(** The local [examples_fn] of [_read_examples_js]. *)
Definition examples_fn (fn language fformat : string) : string :=
  let examples_type :=
    if String.eqb fformat DIALOGFLOW_INTENT then "usersays" else "entries" in
  let examples_fn_ending := "_" +:+ examples_type +:+ "_" +:+ language +:+ ".json" in
  replace fn ".json" examples_fn_ending.

(** [_read_examples_js(fn, language, fformat)]; [None] is Python's [None]. *)
Definition _read_examples_js (w : Externals) (fn language fformat : string)
  : IO (option (list example_js)) :=
  let examples_fn := examples_fn fn language fformat in
  let* found := os_path_isfile w examples_fn in
  if found then
    let* js := read_json_file_examples w examples_fn in ret (Some js)
  else ret None.

Definition unsupported_format_message : string :=
  "fformat must be either " +:+ DIALOGFLOW_INTENT +:+ ", or " +:+ DIALOGFLOW_ENTITIES.

Definition no_examples_message (fn : string) : string :=
  "No training examples found for dialogflow file " +:+ fn +:+ "!".

(** [read(fn, **kwargs)]. [not examples_js] holds for [None] and for the
    empty list; the last case below is that branch. *)
Definition read (w : Externals) (fn : string) (kwargs : dict) : IO TrainingData :=
  let* language := lift (getitem kwargs "language") in
  let* fformat := lift (getitem kwargs "fformat") in
  if negb (String.eqb fformat DIALOGFLOW_INTENT || String.eqb fformat DIALOGFLOW_ENTITIES)
  then raise (ValueError unsupported_format_message)
  else
    let* root_js := read_json_file_root w fn in
    let* examples_js := _read_examples_js w fn language fformat in
    match examples_js with
    | Some ((_ :: _) as examples) =>
        if String.eqb fformat DIALOGFLOW_INTENT then
          lift (_read_intent root_js examples)
        else
          ret (_read_entities w root_js examples)
    | _ =>
        do warn (no_examples_message fn) then
        ret TrainingData_empty
    end.

(** [reads(s, **kwargs)] *)
Definition reads (s : string) (kwargs : dict) : IO TrainingData :=
  raise NotImplementedError.

(** ** The vocabulary of the specification *)

(** The entity type label of a chunk: [alias] if present, else [meta];
    [None] for a chunk that carries neither. *)
Definition label (chunk : dict) : option string :=
  match chunk !! "alias" with
  | Some a => Some a
  | None => chunk !! "meta"
  end.

Definition text_of (chunk : dict) : string := default "" (chunk !! "text").

(** The chunk texts, concatenated in order. *)
Fixpoint utterance_of (chunks : list dict) : string :=
  match chunks with
  | [] => ""
  | chunk :: rest => text_of chunk +:+ utterance_of rest
  end.

(** The span of a chunk that follows the utterance [built] so far: it starts
    at the length of [built] and ends after the chunk's text; a chunk
    without label, or with the ignore marker, has none. *)
Definition span_after (built : string) (chunk : dict) : option entity :=
  match label chunk with
  | Some l =>
      if decide (l = ignore_marker) then None
      else Some (build_entity (len built) (len built + len (text_of chunk))
                   (text_of chunk) l)
  | None => None
  end.

(** The span of the [i]-th chunk, by the running offset. *)
Definition span_at (chunks : list dict) (i : nat) : option entity :=
  match chunks !! i with
  | Some chunk => span_after (utterance_of (take i chunks)) chunk
  | None => None
  end.

Definition spans_of (chunks : list dict) : list entity :=
  omap (span_at chunks) (seq 0 (length chunks)).

(** A chunk the reader takes: it has a text, and an alias comes with a
    meta. *)
Definition well_formed (chunk : dict) : Prop :=
  is_Some (chunk !! "text") /\
  (is_Some (chunk !! "alias") -> is_Some (chunk !! "meta")).

(** A span whose type is not the ignore marker. *)
Definition not_ignored (e : entity) : Prop := span_type e <> ignore_marker.

(** Every span of a batch. *)
Definition spans_of_batch (td : TrainingData) : list entity :=
  concat (map msg_entities (default [] (training_examples td))).

(** The two formats [read] takes. *)
Definition recognized (fformat : string) : Prop :=
  fformat = DIALOGFLOW_INTENT \/ fformat = DIALOGFLOW_ENTITIES.

(** The kind of examples file of a format. *)
Definition examples_kind (fformat : string) : string :=
  if String.eqb fformat DIALOGFLOW_INTENT then "usersays" else "entries".

(** The warnings and the file accesses of a trace. *)
Definition warnings (t : list event) : list string :=
  omap (fun e => match e with EvWarn msg => Some msg | _ => None end) t.

Definition accesses (t : list event) : list string :=
  omap (fun e => match e with
                 | EvReadJson fn => Some fn
                 | EvIsFile fn => Some fn
                 | EvWarn _ => None
                 end) t.

(** The synonym values of all example records that hold no [@]. *)
Definition lookup_elements (examples : list example_js) : list string :=
  filter (fun s => "@"%char ∉ String.list_ascii_of_string s)
    (concat (omap ex_synonyms examples)).

(** The lookup table of the entities path: none when it would be empty. *)
Definition expected_lookup_tables (name : option string) (examples : list example_js)
  : option (list lookup_table) :=
  match lookup_elements examples with
  | [] => None
  | elements => Some [mkLookup name elements]
  end.

(** ** Concrete inputs *)

Definition chunk_book : dict := {[ "text" := "book a " ]}.
Definition chunk_flight : dict := {[ "text" := "flight"; "meta" := "@flight_type" ]}.
Definition chunk_alias_only : dict := {[ "text" := "flight"; "alias" := "flight_type" ]}.
Definition chunk_ignored : dict := {[ "text" := "please"; "meta" := "@sys.ignore" ]}.

Definition kwargs_intent_en : dict :=
  {[ "language" := "en"; "fformat" := "dialogflow_intent" ]}.
Definition kwargs_entities_en : dict :=
  {[ "language" := "en"; "fformat" := "dialogflow_entities" ]}.
Definition kwargs_unsupported : dict :=
  {[ "language" := "en"; "fformat" := "unsupported_value" ]}.

(** A file system given by a root file and one examples file. *)
Definition files (root_fn : string) (root_js : dict)
    (ex_fn : string) (examples : list example_js) : Externals :=
  mkExternals
    (fun fn => String.eqb fn root_fn || String.eqb fn ex_fn)
    (fun fn => if String.eqb fn root_fn then Return root_js else Raise (ReadError 2))
    (fun fn => if String.eqb fn ex_fn then Return examples else Raise (ReadError 2))
    (fun _ => ∅).

(** An export whose directory name holds [.json]: the root file of the
    intent [greet] and its sibling with one example. *)
Definition nested_export : Externals :=
  files "v1.json/greet.json" {[ "name" := "greet" ]}
    "v1.json/greet_usersays_en.json"
    [mkExample (Some [chunk_book; chunk_flight]) None].

(** The intent [greet] with an examples file that holds no record. *)
Definition greet_no_examples : Externals :=
  files "greet.json" {[ "name" := "greet" ]} "greet_usersays_en.json" [].

(** The entity [cities] and its entries. *)
Definition cities_export : Externals :=
  files "cities.json" {[ "name" := "cities" ]} "cities_entries_en.json"
    [mkExample None (Some ["NYC"; "New York"; "@city_ref"])].

(** ** Vocabulary of the further properties *)

(** A span lies inside the utterance [u] and covers its own text there. *)
Definition covers (u : string) (e : entity) : Prop :=
  (0 <= span_start e)%Z /\
  span_end e = (span_start e + len (span_text e))%Z /\
  (span_end e <= len u)%Z /\
  String.substring (Z.to_nat (span_start e)) (String.length (span_text e)) u =
    span_text e.

(** Spans in the order of the text, none reaching into a later one. *)
Definition in_text_order (es : list entity) : Prop :=
  forall i j ei ej,
    i < j -> es !! i = Some ei -> es !! j = Some ej ->
    (span_end ei <= span_start ej)%Z.

(** A span moved to the right by [d] characters. *)
Definition shift (d : Z) (e : entity) : entity :=
  build_entity (span_start e + d) (span_end e + d) (span_text e) (span_type e).

(** An example record the intent path takes: it has a ["data"] list of
    chunks the reader takes. *)
Definition well_formed_example (ex : example_js) : Prop :=
  exists data, ex_data ex = Some data /\ Forall well_formed data.

(** The training example of a record. *)
Definition message_of (intent : option string) (ex : example_js) : Message :=
  Message_build (utterance_of (default [] (ex_data ex))) intent
    (spans_of (default [] (ex_data ex))).

(** The elements of the lookup table, if there is one. *)
Definition table_elements (tables : option (list lookup_table)) : list string :=
  match tables with
  | Some tables => concat (map lt_elements tables)
  | None => []
  end.

(** Nothing can be read: no root file, no examples file. *)
Definition no_files : Externals :=
  mkExternals (fun _ => false) (fun _ => Raise (ReadError 2))
    (fun _ => Raise (ReadError 2)) (fun _ => ∅).

(** The intent [greet] whose examples file is there but cannot be parsed. *)
Definition greet_broken_examples : Externals :=
  mkExternals
    (fun fn => String.eqb fn "greet.json" || String.eqb fn "greet_usersays_en.json")
    (fun fn => if String.eqb fn "greet.json" then Return {[ "name" := "greet" ]}
               else Raise (ReadError 2))
    (fun _ => Raise (ReadError 3)) (fun _ => ∅).

(** The intent [greet] with two examples. *)
Definition greet_export : Externals :=
  files "greet.json" {[ "name" := "greet" ]} "greet_usersays_en.json"
    [mkExample (Some [chunk_book; chunk_flight]) None;
     mkExample (Some [chunk_ignored]) None].

(** A root file whose name has no [.json]: it is its own examples file. *)
Definition bare_export : Externals :=
  files "greet" {[ "name" := "greet" ]} "greet"
    [mkExample (Some [chunk_book]) None].

Definition kwargs_no_language : dict := {[ "fformat" := "dialogflow_intent" ]}.
Definition kwargs_no_fformat : dict := {[ "language" := "en" ]}.

End Dialogflow.

(** * Properties of rasa/core/jobs.py *)

Module JobsProofs.
Import Jobs.

Ltac unfold_M :=
  unfold scheduler, kill_scheduler, try_except_UnknownTimeZoneError,
    new_AsyncIOScheduler, start, shutdown, attr_eventloop, read_global,
    write_global, tell, bind, ret, raise in *.

(** Starting (or stopping) the instance allocated last. *)
Lemma alter_last {A} (f : A -> A) (h : list A) (x : A) :
  alter f (length h) (h ++ [x]) = h ++ [f x].
Proof.
  induction h as [|a h IH]; cbn; [reflexivity|]. f_equal. exact IH.
Qed.

Lemma lookup_last {A} (h : list A) (x : A) : (h ++ [x]) !! length h = Some x.
Proof. rewrite lookup_app_r by lia. rewrite Nat.sub_diag. reflexivity. Qed.

Lemma length_snoc {A} (h : list A) (x : A) : length (h ++ [x]) = S (length h).
Proof. rewrite length_app. cbn. lia. Qed.

(** With the global set, [scheduler] only compares loops. *)
Lemma scheduler_when_set env st r s :
  __scheduler st = Some r -> heap st !! r = Some s ->
  scheduler env st =
    if Nat.eqb (_eventloop s) (get_event_loop env)
    then (Return r, st, [])
    else (Raise (RuntimeError inconsistent_loop_message), st, []).
Proof.
  intros Hg Hs. unfold_M. rewrite Hg. cbn. rewrite Hs.
  destruct (Nat.eqb _ _); reflexivity.
Qed.

(** With the global unset and construction going through, [scheduler]
    returns the instance it allocated. *)
Lemma scheduler_constructs env st :
  __scheduler st = None ->
  construction_succeeds env (length (heap st)) ->
  exists r st' t,
    scheduler env st = (Return r, st', t) /\
    length (heap st) <= r < length (heap st') /\
    __scheduler st' = Some r /\
    inits t <> [].
Proof.
  intros Hg Hc.
  unfold construction_succeeds, first_attempt, utc_attempt, utc_ref in Hc.
  unfold_M. rewrite Hg. cbn.
  destruct (init_raises env None) as [e1|] eqn:E1; cbn.
  - destruct Hc as [Hc|[Hc1 Hc2]]; [discriminate|]. injection Hc1 as ->.
    destruct (init_raises env (Some utc)) as [e2|] eqn:E2; [discriminate|]. cbn.
    rewrite Hc2. cbn. eexists _, _, _. split; [reflexivity|]. cbn.
    rewrite length_alter, length_snoc. repeat split; try lia; done.
  - destruct (start_raises env (length (heap st))) as [e1|] eqn:E3; cbn.
    + destruct Hc as [Hc|[Hc1 Hc2]]; [discriminate|]. injection Hc1 as ->.
      destruct (init_raises env (Some utc)) as [e2|] eqn:E2; [discriminate|]. cbn.
      rewrite length_snoc, Hc2. cbn.
      eexists _, _, _. split; [reflexivity|]. cbn.
      rewrite length_alter, !length_snoc. repeat split; try lia; done.
    + eexists _, _, _. split; [reflexivity|]. cbn.
      rewrite length_alter, length_snoc. repeat split; try lia; done.
Qed.

(** [scheduler] keeps the heap's instances, keeps the global inside the
    heap, and hands out an instance of the heap. *)
Lemma scheduler_invariant env st res st' t :
  wf st -> scheduler env st = (res, st', t) ->
  wf st' /\ length (heap st) <= length (heap st') /\
  (forall r, res = Return r -> r < length (heap st')).
Proof.
  intros Hwf. unfold wf in *. destruct (__scheduler st) as [r0|] eqn:Hg.
  - specialize (Hwf r0 eq_refl).
    destruct (lookup_lt_is_Some_2 _ _ Hwf) as [s Hs].
    rewrite (scheduler_when_set env st r0 s Hg Hs).
    destruct (Nat.eqb _ _); intros H; inversion H; subst; clear H;
      (repeat split; [ intros r; rewrite Hg; intros [= <-]; exact Hwf
                     | lia
                     | intros r Hr; inversion Hr; subst; exact Hwf ]).
  - clear Hwf. unfold_M. rewrite Hg. cbn.
    repeat (match goal with
            | |- context [match init_raises ?e ?a with _ => _ end] =>
                destruct (init_raises e a) as [[]|]; cbn
            | |- context [match start_raises ?e ?a with _ => _ end] =>
                destruct (start_raises e a) as [[]|]; cbn
            end);
    intros [= <- <- <-]; cbn;
    rewrite ?length_alter, ?length_snoc;
    (repeat split; [ intros r; rewrite ?Hg; intros [= <-]; lia
                   | lia
                   | intros r [= <-]; lia ]).
Qed.

Lemma kill_scheduler_invariant env st res st' t :
  kill_scheduler env st = (res, st', t) ->
  wf st -> wf st' /\ length (heap st) <= length (heap st').
Proof.
  unfold wf. unfold_M. destruct (__scheduler st) as [r0|] eqn:Hg; cbn.
  - destruct (shutdown_raises env r0); cbn; intros [= <- <- <-] Hwf; cbn.
    + split; [|lia]. intros r. rewrite Hg. intros [= <-]. apply Hwf. reflexivity.
    + rewrite length_alter. split; [|lia]. intros r [=].
  - intros [= <- <- <-] Hwf. split; [|lia]. intros r. rewrite Hg. intros [=].
Qed.

Lemma exec_invariant c st st' rs :
  wf st -> exec c st = (st', rs) ->
  wf st' /\ length (heap st) <= length (heap st') /\
  Forall (fun r => r < length (heap st')) rs.
Proof.
  intros Hwf. destruct c as [env|env]; unfold exec.
  - destruct (scheduler env st) as [[res st1] t] eqn:E.
    destruct (scheduler_invariant env st res st1 t Hwf E) as (H1 & H2 & H3).
    destruct res; intros H; inversion H; subst; repeat split; auto;
      repeat constructor; auto.
  - destruct (kill_scheduler env st) as [[res st1] t] eqn:E.
    destruct (kill_scheduler_invariant env st res st1 t E Hwf) as (H1 & H2).
    intros H; inversion H; subst. repeat split; auto.
Qed.

(** Every instance handed out so far is an instance of the heap. *)
Lemma run_invariant cs : forall st st' rs,
  wf st -> run cs st = (st', rs) ->
  wf st' /\ length (heap st) <= length (heap st') /\
  Forall (fun r => r < length (heap st')) rs.
Proof.
  induction cs as [|c cs IH]; intros st st' rs Hwf; cbn.
  - intros H; inversion H; subst. repeat split; auto.
  - destruct (exec c st) as [st1 rs1] eqn:E1.
    destruct (run cs st1) as [st2 rs2] eqn:E2.
    destruct (exec_invariant c st st1 rs1 Hwf E1) as (W1 & L1 & F1).
    destruct (IH st1 st2 rs2 W1 E2) as (W2 & L2 & F2).
    intros H; inversion H; subst; clear H.
    repeat split; [exact W2 | lia |].
    apply Forall_app. split; [|exact F2].
    eapply Forall_impl; [exact F1|]. cbn. intros r Hr. lia.
Qed.

Lemma wf_initial : wf initial.
Proof. intros r [=]. Qed.

(** C4. Whenever an instance exists, [scheduler] returns that same instance
    and leaves the state as it is if the current event loop is the loop the
    instance is bound to, and raises the [RuntimeError] on inconsistent loop
    usage if it is another loop; whatever it returns is bound to the current
    loop. *)
Theorem scheduler_existing_instance (env : Env) (st : State) (r : ref)
    (s : AsyncIOScheduler) :
  __scheduler st = Some r -> heap st !! r = Some s ->
  (_eventloop s = get_event_loop env ->
     scheduler env st = (Return r, st, [])) /\
  (_eventloop s <> get_event_loop env ->
     scheduler env st = (Raise (RuntimeError inconsistent_loop_message), st, [])) /\
  (forall r' st' t, scheduler env st = (Return r', st', t) ->
     r' = r /\ st' = st /\ _eventloop s = get_event_loop env).
Proof.
  intros Hg Hs. rewrite (scheduler_when_set env st r s Hg Hs).
  destruct (Nat.eqb_spec (_eventloop s) (get_event_loop env)) as [Heq|Hne].
  - repeat split; try congruence.
  - repeat split; try congruence.
Qed.

Lemma scheduler_existing_instance_witness :
  scheduler env_loop1 st_live = (Return 0, st_live, []) /\
  scheduler env_loop2 st_live =
    (Raise (RuntimeError inconsistent_loop_message), st_live, []).
Proof.
  split.
  - apply (proj1 (scheduler_existing_instance env_loop1 st_live 0
                    (mkScheduler 1 None true) eq_refl eq_refl)).
    reflexivity.
  - apply (proj1 (proj2 (scheduler_existing_instance env_loop2 st_live 0
                    (mkScheduler 1 None true) eq_refl eq_refl))).
    cbn. lia.
Defined.

(** C7. With no instance and an [UnknownTimeZoneError] from the first
    attempt, [scheduler] warns and then calls the constructor once more, with
    [utc]; what that second attempt raises is what the caller gets, and
    when it goes through its instance is started, stored and returned. No run
    of [scheduler] calls the constructor more than twice, a second call only
    happens in that case, and [kill_scheduler] never calls it. *)
Theorem utc_fallback_once (env : Env) (st : State) :
  (__scheduler st = None ->
   first_attempt env (length (heap st)) = Some UnknownTimeZoneError ->
   exists res st' before after,
     scheduler env st =
       (res, st',
        before ++ EvWarn timezone_warning ::
                  EvInit (get_event_loop env) (Some utc) :: after) /\
     inits before = [None] /\ warnings before = [] /\
     inits after = [] /\ warnings after = [] /\
     (forall e, utc_attempt env (length (heap st)) = Some e -> res = Raise e) /\
     (utc_attempt env (length (heap st)) = None ->
        res = Return (utc_ref env (length (heap st))) /\
        __scheduler st' = Some (utc_ref env (length (heap st))) /\
        heap st' !! utc_ref env (length (heap st)) =
          Some (mkScheduler (get_event_loop env) (Some utc) true))) /\
  (forall res st' t, scheduler env st = (res, st', t) ->
     inits t = [] \/ inits t = [None] \/
     (inits t = [None; Some utc] /\ __scheduler st = None /\
      first_attempt env (length (heap st)) = Some UnknownTimeZoneError)) /\
  (forall res st' t, kill_scheduler env st = (res, st', t) -> inits t = []).
Proof.
  split; [|split].
  - intros Hg Hf. unfold first_attempt, utc_attempt, utc_ref in *.
    unfold_M. rewrite Hg. cbn.
    destruct (init_raises env None) as [e1|] eqn:E1; cbn.
    + injection Hf as ->.
      destruct (init_raises env (Some utc)) as [e2|] eqn:E2; cbn.
      * exists (Raise e2), st, [EvInit (get_event_loop env) None], [].
        destruct st; cbn in *; subst.
        repeat split; try reflexivity; try congruence.
      * destruct (start_raises env (length (heap st))) as [e3|] eqn:E3; cbn.
        -- eexists _, _, [EvInit (get_event_loop env) None], [EvStart _].
           split; [reflexivity|].
           repeat split; try reflexivity; try congruence.
        -- eexists _, _, [EvInit (get_event_loop env) None], [EvStart _].
           split; [reflexivity|]. cbn. rewrite alter_last.
           repeat split; try reflexivity; try congruence.
           apply lookup_last.
    + rewrite Hf. cbn.
      destruct (init_raises env (Some utc)) as [e2|] eqn:E2; cbn.
      * eexists _, _, [EvInit (get_event_loop env) None; EvStart _], [].
        split; [reflexivity|].
        repeat split; try reflexivity; try congruence.
      * rewrite length_snoc.
        destruct (start_raises env (S (length (heap st)))) as [e3|] eqn:E3; cbn.
        -- eexists _, _, [EvInit (get_event_loop env) None; EvStart _], [EvStart _].
           split; [reflexivity|].
           repeat split; try reflexivity; try congruence.
        -- eexists _, _, [EvInit (get_event_loop env) None; EvStart _], [EvStart _].
           split; [reflexivity|]. cbn.
           rewrite <- (length_snoc (heap st) (mkScheduler (get_event_loop env) None false)).
           rewrite alter_last.
           repeat split; try reflexivity; try congruence.
           apply lookup_last.
  - intros res st' t. unfold first_attempt. unfold_M.
    destruct (__scheduler st) as [r0|] eqn:Hg; cbn.
    + destruct (heap st !! r0); cbn; [destruct (Nat.eqb _ _); cbn|];
        intros H; inversion H; subst; left; reflexivity.
    + destruct (init_raises env None) as [e1|] eqn:E1; cbn.
      * destruct e1; cbn;
          try (intros H; inversion H; subst; right; left; reflexivity).
        destruct (init_raises env (Some utc)) as [e2|] eqn:E2; cbn;
          [|destruct (start_raises env (length (heap st))); cbn];
          intros H; inversion H; subst; right; right; auto.
      * destruct (start_raises env (length (heap st))) as [e1|] eqn:E3; cbn.
        -- destruct e1; cbn;
             try (intros H; inversion H; subst; right; left; reflexivity).
           destruct (init_raises env (Some utc)) as [e2|] eqn:E2; cbn;
             [|rewrite length_snoc;
               destruct (start_raises env (S (length (heap st)))); cbn];
             intros H; inversion H; subst; right; right; auto.
        -- intros H; inversion H; subst; right; left; reflexivity.
  - intros res st' t. unfold_M.
    destruct (__scheduler st) as [r0|]; cbn;
      [destruct (shutdown_raises env r0); cbn|];
      intros H; inversion H; subst; reflexivity.
Qed.

Lemma utc_fallback_once_witness :
  exists st' before after,
    scheduler env_no_tz initial =
      (Return 0, st',
       before ++ EvWarn timezone_warning :: EvInit 1 (Some utc) :: after) /\
    inits before = [None].
Proof.
  destruct (proj1 (utc_fallback_once env_no_tz initial) eq_refl eq_refl)
    as (res & st' & before & after & Hrun & Hb & _ & _ & _ & _ & Hok).
  destruct (Hok eq_refl) as (-> & _).
  exists st', before, after. split; [exact Hrun | exact Hb].
Defined.

(** Without an instance, every outcome of [scheduler] has called the
    constructor, and it returns exactly when construction goes through. *)
Lemma scheduler_unset_outcome (env : Env) (st st' : State) (res : result ref)
    (t : list event) :
  __scheduler st = None ->
  scheduler env st = (res, st', t) ->
  inits t <> [] /\
  ((exists r, res = Return r) <-> construction_succeeds env (length (heap st))).
Proof.
  intros Hg. unfold construction_succeeds, first_attempt, utc_attempt, utc_ref.
  unfold_M. rewrite Hg. cbn.
  destruct (init_raises env None) as [e1|] eqn:E1; cbn.
  - destruct e1; cbn.
    + destruct (init_raises env (Some utc)) as [e2|] eqn:E2; cbn.
      * intros H; inversion H; subst; clear H. split; [discriminate|].
        split; [intros [r Hr]; discriminate Hr|].
        intros [Hc|[_ Hc]]; discriminate Hc.
      * destruct (start_raises env (length (heap st))) as [e3|] eqn:E3; cbn;
          intros H; inversion H; subst; clear H; (split; [discriminate|]).
        -- split; [intros [r Hr]; discriminate Hr|].
           intros [Hc|[_ Hc]]; discriminate Hc.
        -- split; [intros _; right; split; reflexivity|eauto].
    + intros H; inversion H; subst; clear H. split; [discriminate|].
      split; [intros [r Hr]; discriminate Hr|].
      intros [Hc|[Hc _]]; discriminate Hc.
    + intros H; inversion H; subst; clear H. split; [discriminate|].
      split; [intros [r Hr]; discriminate Hr|].
      intros [Hc|[Hc _]]; discriminate Hc.
  - destruct (start_raises env (length (heap st))) as [e1|] eqn:E3; cbn.
    + destruct e1; cbn.
      * destruct (init_raises env (Some utc)) as [e2|] eqn:E2; cbn.
        -- intros H; inversion H; subst; clear H. split; [discriminate|].
           split; [intros [r Hr]; discriminate Hr|].
           intros [Hc|[_ Hc]]; discriminate Hc.
        -- rewrite length_snoc.
           destruct (start_raises env (S (length (heap st)))) as [e3|] eqn:E4; cbn;
             intros H; inversion H; subst; clear H; (split; [discriminate|]).
           ++ split; [intros [r Hr]; discriminate Hr|].
              intros [Hc|[_ Hc]]; discriminate Hc.
           ++ split; [intros _; right; split; reflexivity|eauto].
      * intros H; inversion H; subst; clear H. split; [discriminate|].
        split; [intros [r Hr]; discriminate Hr|].
        intros [Hc|[Hc _]]; discriminate Hc.
      * intros H; inversion H; subst; clear H. split; [discriminate|].
        split; [intros [r Hr]; discriminate Hr|].
        intros [Hc|[Hc _]]; discriminate Hc.
    + intros H; inversion H; subst; clear H. split; [discriminate|].
      split; [intros _; left; reflexivity|eauto].
Qed.

(** [kill_scheduler], by the state of the global and what [shutdown] does. *)
Lemma kill_scheduler_cases (env : Env) (st : State) :
  (__scheduler st = None -> kill_scheduler env st = (Return tt, st, [])) /\
  (forall r0, __scheduler st = Some r0 -> shutdown_raises env r0 = None ->
     kill_scheduler env st =
       (Return tt, mkState (alter (set_running false) r0 (heap st)) None,
        [EvShutdown r0])) /\
  (forall r0 e, __scheduler st = Some r0 -> shutdown_raises env r0 = Some e ->
     kill_scheduler env st = (Raise e, st, [EvShutdown r0])).
Proof.
  unfold_M. repeat split.
  - intros Hg. rewrite Hg. reflexivity.
  - intros r0 Hg Hs. rewrite Hg. cbn. rewrite Hs. reflexivity.
  - intros r0 e Hg Hs. rewrite Hg. cbn. rewrite Hs. reflexivity.
Qed.

(** The claim as it was stated fails after one ordinary call of
    [scheduler]: with a [shutdown] that raises, [kill_scheduler] raises and
    keeps the global, and the next [scheduler] hands out the instance that
    was handed out before; and after a [kill_scheduler] that returned, a
    [scheduler] whose constructor raises returns no instance. *)
Lemma kill_scheduler_can_fail :
  snd (run history_one initial) = [0] /\
  kill_scheduler env_shutdown_fails (fst (run history_one initial)) =
    (Raise (LibraryError 7), fst (run history_one initial), [EvShutdown 0]) /\
  scheduler env_loop1 (fst (run history_one initial)) =
    (Return 0, fst (run history_one initial), []) /\
  scheduler env_init_fails
    (snd (fst (kill_scheduler env_loop1 (fst (run history_one initial))))) =
    (Raise (LibraryError 7),
     snd (fst (kill_scheduler env_loop1 (fst (run history_one initial)))),
     [EvInit 1 None]).
Proof. repeat split; vm_compute; reflexivity. Qed.

(** C9 (amended). After any sequence of calls: without an instance
    [kill_scheduler] returns and changes nothing; with an instance whose
    [shutdown] returns it returns, having stopped the instance and cleared
    the global; it fails only when [shutdown] raises, and then the exception
    goes to the caller and the global is kept. After a [kill_scheduler]
    that returned, the next [scheduler] call finds no instance and calls
    the constructor; it returns exactly when construction goes through, and
    what it returns is the new instance, which no earlier call handed out
    and which the global then holds. *)
Theorem kill_scheduler_outcomes (history : list call) (env_k env_s : Env)
    (st : State) (returned : list ref) :
  run history initial = (st, returned) ->
  (__scheduler st = None -> kill_scheduler env_k st = (Return tt, st, [])) /\
  (forall r0, __scheduler st = Some r0 -> shutdown_raises env_k r0 = None ->
     kill_scheduler env_k st =
       (Return tt, mkState (alter (set_running false) r0 (heap st)) None,
        [EvShutdown r0])) /\
  (forall r0 e, __scheduler st = Some r0 -> shutdown_raises env_k r0 = Some e ->
     kill_scheduler env_k st = (Raise e, st, [EvShutdown r0])) /\
  (forall st1 t1 res st2 t2,
     kill_scheduler env_k st = (Return tt, st1, t1) ->
     scheduler env_s st1 = (res, st2, t2) ->
     __scheduler st1 = None /\
     inits t2 <> [] /\
     ((exists r, res = Return r) <->
      construction_succeeds env_s (length (heap st1))) /\
     (forall r, res = Return r -> ~ In r returned /\ __scheduler st2 = Some r)).
Proof.
  intros Hrun.
  destruct (kill_scheduler_cases env_k st) as (Hnone & Hok & Hfail).
  split; [exact Hnone|]. split; [exact Hok|]. split; [exact Hfail|].
  intros st1 t1 res st2 t2 Hk Hs.
  destruct (run_invariant history initial st returned wf_initial Hrun)
    as (Hwf & _ & Hret).
  assert (Hst1 : __scheduler st1 = None /\ length (heap st1) = length (heap st)).
  { destruct (__scheduler st) as [r0|] eqn:Hg.
    - destruct (shutdown_raises env_k r0) as [e|] eqn:Hsh.
      + rewrite (Hfail r0 e eq_refl Hsh) in Hk. discriminate Hk.
      + rewrite (Hok r0 eq_refl Hsh) in Hk. inversion Hk; subst. cbn.
        rewrite length_alter. split; reflexivity.
    - rewrite (Hnone eq_refl) in Hk. inversion Hk; subst.
      split; [exact Hg|reflexivity]. }
  destruct Hst1 as [Hg1 Hlen].
  destruct (scheduler_unset_outcome env_s st1 st2 res t2 Hg1 Hs) as [Hi Hiff].
  split; [exact Hg1|]. split; [exact Hi|]. split; [exact Hiff|].
  intros r ->.
  assert (Hc : construction_succeeds env_s (length (heap st1))).
  { apply Hiff. eauto. }
  destruct (scheduler_constructs env_s st1 Hg1 Hc)
    as (r' & st2' & t2' & Hs' & Hr' & Hg2 & _).
  rewrite Hs in Hs'. inversion Hs'; subst. split; [|exact Hg2].
  intros Hin. rewrite Forall_forall in Hret.
  apply list_elem_of_In in Hin. specialize (Hret r' Hin). lia.
Qed.

Lemma kill_scheduler_outcomes_witness :
  kill_scheduler env_loop1 (fst (run history_one initial)) =
    (Return tt, mkState [mkScheduler 1 None false] None, [EvShutdown 0]) /\
  ~ In 1 (snd (run history_one initial)).
Proof.
  pose proof (kill_scheduler_outcomes history_one env_loop1 env_loop1
                (fst (run history_one initial)) (snd (run history_one initial))
                eq_refl) as (_ & Hok & _ & Hnext).
  split.
  - apply (Hok 0); reflexivity.
  - apply (Hnext (mkState [mkScheduler 1 None false] None) [EvShutdown 0]
             (Return 1)
             (mkState [mkScheduler 1 None false; mkScheduler 1 None true] (Some 1))
             [EvInit 1 None; EvStart 1]).
    + reflexivity.
    + reflexivity.
    + reflexivity.
Defined.

(** ** Further properties of the scheduler module *)

(** The result of a call without an instance that returns. *)
Lemma scheduler_fresh_result (env : Env) (st st' : State) (r : ref)
    (t : list event) :
  __scheduler st = None ->
  scheduler env st = (Return r, st', t) ->
  __scheduler st' = Some r /\
  length (heap st) <= r /\
  ((heap st' !! r = Some (mkScheduler (get_event_loop env) None true) /\
    warnings t = []) \/
   (heap st' !! r = Some (mkScheduler (get_event_loop env) (Some utc) true) /\
    warnings t = [timezone_warning])).
Proof.
  intros Hg. unfold_M. rewrite Hg. cbn.
  destruct (init_raises env None) as [e1|] eqn:E1; cbn.
  - destruct e1; cbn; try (intros H; discriminate H).
    destruct (init_raises env (Some utc)) as [e2|] eqn:E2; cbn;
      [intros H; discriminate H|].
    destruct (start_raises env (length (heap st))) as [e3|] eqn:E3; cbn;
      [intros H; discriminate H|].
    intros H; inversion H; subst; clear H. cbn. rewrite alter_last.
    repeat split; [lia|]. right. split; [apply lookup_last|reflexivity].
  - destruct (start_raises env (length (heap st))) as [e1|] eqn:E3; cbn.
    + destruct e1; cbn; try (intros H; discriminate H).
      destruct (init_raises env (Some utc)) as [e2|] eqn:E2; cbn;
        [intros H; discriminate H|].
      rewrite length_snoc.
      destruct (start_raises env (S (length (heap st)))) as [e3|] eqn:E4; cbn;
        [intros H; discriminate H|].
      intros H; inversion H; subst; clear H. cbn.
      rewrite <- (length_snoc (heap st) (mkScheduler (get_event_loop env) None false)).
      rewrite alter_last.
      repeat split; [rewrite length_snoc; lia|]. right.
      split; [apply lookup_last|reflexivity].
    + intros H; inversion H; subst; clear H. cbn. rewrite alter_last.
      repeat split; [lia|]. left. split; [apply lookup_last|reflexivity].
Qed.

(** X1. What a call of [scheduler] without an instance returns is the
    instance the global then holds; that instance is bound to the current
    loop and running, and it has the [utc] zone exactly when the warning was
    given. *)
Theorem scheduler_fresh_is_running (env : Env) (st st' : State) (r : ref)
    (t : list event) :
  __scheduler st = None ->
  scheduler env st = (Return r, st', t) ->
  __scheduler st' = Some r /\
  length (heap st) <= r /\
  ((heap st' !! r = Some (mkScheduler (get_event_loop env) None true) /\
    warnings t = []) \/
   (heap st' !! r = Some (mkScheduler (get_event_loop env) (Some utc) true) /\
    warnings t = [timezone_warning])).
Proof. apply scheduler_fresh_result. Qed.

Lemma scheduler_fresh_is_running_witness :
  exists st' t,
    scheduler env_no_tz initial = (Return 0, st', t) /\
    heap st' !! 0 = Some (mkScheduler 1 (Some utc) true).
Proof.
  destruct (scheduler env_no_tz initial) as [[res st'] t] eqn:E.
  assert (Hres : res = Return 0) by (vm_compute in E; congruence).
  subst res.
  destruct (scheduler_fresh_is_running env_no_tz initial st' 0 t eq_refl E)
    as (_ & _ & [[_ Hw]|[Hh _]]).
  - vm_compute in E. inversion E; subst. discriminate Hw.
  - exists st', t. split; [reflexivity|exact Hh].
Defined.

(** X2. Once [scheduler] has returned an instance, a further call on the
    same event loop returns that same instance, calls nothing in the
    library and leaves the state as it is. *)
Theorem scheduler_idempotent (env env' : Env) (st st' : State) (r : ref)
    (t : list event) :
  wf st ->
  scheduler env st = (Return r, st', t) ->
  get_event_loop env' = get_event_loop env ->
  scheduler env' st' = (Return r, st', []).
Proof.
  intros Hwf Hrun Hloop. destruct (__scheduler st) as [r0|] eqn:Hg.
  - destruct (lookup_lt_is_Some_2 _ _ (Hwf r0 Hg)) as [s Hs].
    rewrite (scheduler_when_set env st r0 s Hg Hs) in Hrun.
    destruct (Nat.eqb_spec (_eventloop s) (get_event_loop env)) as [Heq|Hne];
      inversion Hrun; subst; clear Hrun.
    rewrite (scheduler_when_set env' st' r s Hg Hs).
    rewrite Hloop, Heq, Nat.eqb_refl. reflexivity.
  - destruct (scheduler_fresh_result env st st' r t Hg Hrun)
      as (Hg' & _ & [[Hh _]|[Hh _]]);
      rewrite (scheduler_when_set env' st' r _ Hg' Hh); cbn;
      rewrite Hloop, Nat.eqb_refl; reflexivity.
Qed.

Lemma scheduler_idempotent_witness :
  scheduler env_loop1 (snd (fst (scheduler env_loop1 initial))) =
    (Return 0, snd (fst (scheduler env_loop1 initial)), []).
Proof.
  apply (scheduler_idempotent env_loop1 env_loop1 initial
           (snd (fst (scheduler env_loop1 initial))) 0
           (snd (scheduler env_loop1 initial))).
  - exact wf_initial.
  - reflexivity.
  - reflexivity.
Defined.

Lemma scheduler_set_keeps_state (env : Env) (st : State) (r : ref) :
  __scheduler st = Some r -> snd (fst (scheduler env st)) = st.
Proof.
  intros Hg. unfold_M. rewrite Hg. cbn.
  destruct (heap st !! r); cbn; [destruct (Nat.eqb _ _)|]; reflexivity.
Qed.

Lemma exec_scheduler_global (env : Env) (st st' : State) (rs : list ref) :
  exec (CallScheduler env) st = (st', rs) ->
  (forall r, __scheduler st = Some r -> st' = st) /\
  (forall r, In r rs -> __scheduler st' = Some r).
Proof.
  unfold exec. destruct (scheduler env st) as [[res st1] t] eqn:E.
  intros H. split.
  - intros r0 Hg. pose proof (scheduler_set_keeps_state env st r0 Hg) as Hk.
    rewrite E in Hk. cbn in Hk. destruct res; inversion H; congruence.
  - intros r Hin. destruct res as [r1|e]; inversion H; subst; clear H;
      [|destruct Hin].
    destruct Hin as [<-|[]].
    destruct (__scheduler st) as [r0|] eqn:Hg.
    + pose proof (scheduler_set_keeps_state env st r0 Hg) as Hk.
      rewrite E in Hk. cbn in Hk. subst st'.
      unfold_M. rewrite Hg in E. cbn in E.
      destruct (heap st !! r0); cbn in E; [destruct (Nat.eqb _ _)|];
        inversion E; subst. exact Hg.
    + apply (scheduler_fresh_result env st st' r1 t Hg E).
Qed.

Lemma run_kill_free_keeps_global (cs : list call) :
  forall st st' rs r,
    kill_free cs -> __scheduler st = Some r -> run cs st = (st', rs) ->
    st' = st /\ forall r', In r' rs -> r' = r.
Proof.
  induction cs as [|c cs IH]; intros st st' rs r Hkf Hg; cbn.
  - intros H; inversion H; subst. split; [reflexivity|intros r' []].
  - inversion Hkf as [|c' cs' Hc Hcs]; subst.
    destruct c as [env|env]; [|destruct Hc].
    destruct (exec (CallScheduler env) st) as [st1 rs1] eqn:E1.
    destruct (run cs st1) as [st2 rs2] eqn:E2.
    destruct (exec_scheduler_global env st st1 rs1 E1) as [Hsame Hret].
    pose proof (Hsame r Hg) as ->.
    destruct (IH st st2 rs2 r Hcs Hg E2) as [-> Hrs2].
    intros H; inversion H; subst; clear H. split; [reflexivity|].
    intros r' Hin. apply in_app_or in Hin. destruct Hin as [Hin|Hin].
    + specialize (Hret r' Hin). congruence.
    + apply Hrs2, Hin.
Qed.

(** X3. Without a call of [kill_scheduler], the module hands out one
    instance only: every instance handed out in the history is the one the
    global holds at its end, so any two of them are the same. *)
Theorem singleton_without_kill (history : list call) (st : State)
    (returned : list ref) :
  kill_free history ->
  run history initial = (st, returned) ->
  (forall r, In r returned -> __scheduler st = Some r) /\
  (forall r1 r2, In r1 returned -> In r2 returned -> r1 = r2).
Proof.
  intros Hkf Hrun.
  assert (Hall : forall cs st0 st1 rs,
    kill_free cs -> run cs st0 = (st1, rs) ->
    forall r, In r rs -> __scheduler st1 = Some r).
  { induction cs as [|c cs IH]; intros st0 st1 rs Hk; cbn.
    - intros H; inversion H; subst. intros r [].
    - inversion Hk as [|c' cs' Hc Hcs]; subst.
      destruct c as [env|env]; [|destruct Hc].
      destruct (exec (CallScheduler env) st0) as [sta rsa] eqn:E1.
      destruct (run cs sta) as [stb rsb] eqn:E2.
      destruct (exec_scheduler_global env st0 sta rsa E1) as [_ Hret].
      intros H; inversion H; subst; clear H.
      intros r Hin. apply in_app_or in Hin. destruct Hin as [Hin|Hin].
      + specialize (Hret r Hin).
        destruct (run_kill_free_keeps_global cs sta st1 rsb r Hcs Hret E2)
          as [-> _].
        exact Hret.
      + apply (IH sta st1 rsb Hcs E2 r Hin). }
  split.
  - apply (Hall history initial st returned Hkf Hrun).
  - intros r1 r2 H1 H2.
    pose proof (Hall history initial st returned Hkf Hrun r1 H1) as G1.
    pose proof (Hall history initial st returned Hkf Hrun r2 H2) as G2.
    congruence.
Qed.

Lemma singleton_without_kill_witness :
  snd (run history_three initial) = [0; 0] /\
  __scheduler (fst (run history_three initial)) = Some 0.
Proof.
  split; [vm_compute; reflexivity|].
  apply (proj1 (singleton_without_kill history_three
                  (fst (run history_three initial))
                  (snd (run history_three initial))
                  ltac:(repeat constructor) eq_refl)).
  vm_compute. left. reflexivity.
Defined.

(** X4. An exception of the first attempt other than
    [UnknownTimeZoneError], from the constructor or from [start], goes to
    the caller as it is: no warning is given and the constructor is not
    called again; when it came from the constructor the state is left as it
    was. *)
Theorem first_attempt_error_propagates (env : Env) (st : State) (e : exn) :
  __scheduler st = None ->
  first_attempt env (length (heap st)) = Some e ->
  e <> UnknownTimeZoneError ->
  exists st' t,
    scheduler env st = (Raise e, st', t) /\
    warnings t = [] /\ inits t = [None] /\
    (init_raises env None = Some e -> st' = st).
Proof.
  intros Hg Hf Hne. unfold first_attempt in Hf. unfold_M. rewrite Hg. cbn.
  destruct (init_raises env None) as [e1|] eqn:Hi; cbn.
  - injection Hf as ->. exists st, [EvInit (get_event_loop env) None].
    destruct st; cbn in *; subst.
    destruct e; try (repeat split; reflexivity). congruence.
  - rewrite Hf. cbn.
    eexists _, [EvInit (get_event_loop env) None; EvStart (length (heap st))].
    destruct e; try (repeat split; try reflexivity; intros H; discriminate H).
    congruence.
Qed.

Lemma first_attempt_error_propagates_witness :
  exists t,
    scheduler env_init_fails initial = (Raise (LibraryError 7), initial, t) /\
    warnings t = [].
Proof.
  destruct (first_attempt_error_propagates env_init_fails initial (LibraryError 7)
              eq_refl eq_refl ltac:(intros H; discriminate H))
    as (st' & t & Hrun & Hw & _ & Hst).
  rewrite (Hst eq_refl) in Hrun. exists t. split; [exact Hrun|exact Hw].
Defined.

(** X5. When the constructor returns and [start] raises an exception other
    than [UnknownTimeZoneError], the exception goes to the caller, but the
    global already holds the new instance, which was not started: the next
    call of [scheduler] on that loop returns this instance, not running,
    and starts nothing. *)
Theorem start_error_leaves_unstarted_instance (env env' : Env) (st : State) (e : exn) :
  __scheduler st = None ->
  init_raises env None = None ->
  start_raises env (length (heap st)) = Some e ->
  e <> UnknownTimeZoneError ->
  get_event_loop env' = get_event_loop env ->
  exists st',
    scheduler env st =
      (Raise e, st',
       [EvInit (get_event_loop env) None; EvStart (length (heap st))]) /\
    __scheduler st' = Some (length (heap st)) /\
    heap st' !! length (heap st) =
      Some (mkScheduler (get_event_loop env) None false) /\
    scheduler env' st' = (Return (length (heap st)), st', []).
Proof.
  intros Hg Hi Hs Hne Hloop.
  exists (mkState (heap st ++ [mkScheduler (get_event_loop env) None false])
            (Some (length (heap st)))).
  assert (Hrun : scheduler env st =
    (Raise e,
     mkState (heap st ++ [mkScheduler (get_event_loop env) None false])
       (Some (length (heap st))),
     [EvInit (get_event_loop env) None; EvStart (length (heap st))])).
  { unfold_M. rewrite Hg. cbn. rewrite Hi. cbn. rewrite Hs. cbn.
    destruct e; try reflexivity. congruence. }
  split; [exact Hrun|]. split; [reflexivity|]. split; [apply lookup_last|].
  rewrite (scheduler_when_set env'
             (mkState (heap st ++ [mkScheduler (get_event_loop env) None false])
                (Some (length (heap st))))
             (length (heap st))
             (mkScheduler (get_event_loop env) None false) eq_refl
             (lookup_last _ _)).
  cbn. rewrite Hloop, Nat.eqb_refl. reflexivity.
Qed.

Lemma start_error_leaves_unstarted_instance_witness :
  exists st',
    scheduler env_start_fails initial =
      (Raise (LibraryError 7), st', [EvInit 1 None; EvStart 0]) /\
    heap st' !! 0 = Some (mkScheduler 1 None false) /\
    scheduler env_loop1 st' = (Return 0, st', []).
Proof.
  destruct (start_error_leaves_unstarted_instance env_start_fails env_loop1
              initial (LibraryError 7) eq_refl eq_refl eq_refl
              ltac:(intros H; discriminate H) eq_refl)
    as (st' & H1 & _ & H3 & H4).
  exists st'. auto.
Defined.

(** X6. When [shutdown] raises, [kill_scheduler] passes the exception on
    and does not clear the global: the state is as before, and [scheduler]
    on the instance's loop still returns that instance. *)
Theorem shutdown_error_keeps_instance (env env' : Env) (st : State) (r : ref)
    (s : AsyncIOScheduler) (e : exn) :
  __scheduler st = Some r ->
  heap st !! r = Some s ->
  shutdown_raises env r = Some e ->
  get_event_loop env' = _eventloop s ->
  kill_scheduler env st = (Raise e, st, [EvShutdown r]) /\
  scheduler env' st = (Return r, st, []).
Proof.
  intros Hg Hs He Hloop. split.
  - unfold_M. rewrite Hg. cbn. rewrite He. cbn. reflexivity.
  - rewrite (scheduler_when_set env' st r s Hg Hs).
    rewrite Hloop, Nat.eqb_refl. reflexivity.
Qed.

Lemma shutdown_error_keeps_instance_witness :
  kill_scheduler env_shutdown_fails st_live =
    (Raise (LibraryError 7), st_live, [EvShutdown 0]) /\
  scheduler env_loop1 st_live = (Return 0, st_live, []).
Proof.
  apply (shutdown_error_keeps_instance env_shutdown_fails env_loop1 st_live 0
           (mkScheduler 1 None true) (LibraryError 7));
    reflexivity.
Defined.

(** X7. After a [kill_scheduler] that returned, a second [kill_scheduler]
    does nothing: it neither calls [shutdown] nor changes the state. *)
Theorem kill_scheduler_twice (env env' : Env) (st st' : State) (t : list event) :
  kill_scheduler env st = (Return tt, st', t) ->
  kill_scheduler env' st' = (Return tt, st', []).
Proof.
  unfold_M. destruct (__scheduler st) as [r|] eqn:Hg; cbn.
  - destruct (shutdown_raises env r); cbn; intros H; inversion H; subst.
    reflexivity.
  - intros H; inversion H; subst. rewrite Hg. reflexivity.
Qed.

Lemma kill_scheduler_twice_witness :
  kill_scheduler env_loop2 (snd (fst (kill_scheduler env_loop1 st_live))) =
    (Return tt, snd (fst (kill_scheduler env_loop1 st_live)), []).
Proof.
  apply (kill_scheduler_twice env_loop1 env_loop2 st_live _ [EvShutdown 0]).
  reflexivity.
Defined.

End JobsProofs.

(** * Properties of rasa/nlu/training_data/formats/dialogflow.py *)

Module DialogflowProofs.
Import Dialogflow.

#[local] Arguments examples_fn : simpl never.

(** ** Strings *)

Lemma str_app_cons (x : ascii) (a b : string) :
  String x a +:+ b = String x (a +:+ b).
Proof. reflexivity. Qed.

Lemma str_app_assoc (a b c : string) : (a +:+ b) +:+ c = a +:+ (b +:+ c).
Proof.
  induction a as [|x a IH]; [reflexivity|].
  rewrite !str_app_cons, IH. reflexivity.
Qed.

Lemma str_app_nil_r (a : string) : a +:+ "" = a.
Proof.
  induction a as [|x a IH]; [reflexivity|].
  rewrite str_app_cons, IH. reflexivity.
Qed.

Lemma str_length_app (a b : string) :
  String.length (a +:+ b) = String.length a + String.length b.
Proof.
  induction a as [|x a IH]; [reflexivity|].
  rewrite str_app_cons. cbn. rewrite IH. reflexivity.
Qed.

Lemma len_app (a b : string) : len (a +:+ b) = (len a + len b)%Z.
Proof. unfold len. rewrite str_length_app. lia. Qed.

Lemma prefix_nil (s : string) : String.prefix "" s = true.
Proof. destruct s; reflexivity. Qed.

(** ** Dictionaries *)

Lemma contains_true (k : string) (d : dict) : contains k d = true <-> is_Some (d !! k).
Proof. unfold contains. apply bool_decide_eq_true. Qed.

Lemma contains_Some (k : string) (d : dict) v : d !! k = Some v -> contains k d = true.
Proof. intros H. apply contains_true. eauto. Qed.

Lemma contains_None (k : string) (d : dict) : d !! k = None -> contains k d = false.
Proof.
  intros H. unfold contains. apply bool_decide_eq_false. rewrite H.
  intros [x Hx]. discriminate.
Qed.

(** ** Chunks and spans *)

(** On a chunk the reader takes, [_extract_entity] computes the span of the
    running-offset rule. *)
Lemma extract_entity_span_after (chunk : dict) (built : string) :
  well_formed chunk ->
  _extract_entity chunk (len built) = Return (span_after built chunk).
Proof.
  intros [[t Ht] Hmeta]. unfold _extract_entity, span_after, label, text_of, getitem, get_default.
  rewrite Ht. cbn.
  destruct (chunk !! "meta") as [m|] eqn:Hm.
  - rewrite (contains_Some _ _ _ Hm). cbn.
    destruct (chunk !! "alias") as [a|] eqn:Ha; cbn.
    + destruct (String.eqb_spec a ignore_marker) as [->|Hne]; cbn.
      * rewrite decide_True by reflexivity. reflexivity.
      * rewrite decide_False by assumption. reflexivity.
    + destruct (String.eqb_spec m ignore_marker) as [->|Hne]; cbn.
      * rewrite decide_True by reflexivity. reflexivity.
      * rewrite decide_False by assumption. reflexivity.
  - rewrite (contains_None _ _ Hm). cbn.
    destruct (chunk !! "alias") as [a|] eqn:Ha.
    + destruct Hmeta as [m Hm']; [eauto|]. discriminate.
    + rewrite (contains_None _ _ Ha). reflexivity.
Qed.

Lemma omap_seq_shift {A} (f : nat -> option A) (n : nat) :
  omap f (seq 1 n) = omap (fun i => f (S i)) (seq 0 n).
Proof.
  rewrite <- fmap_S_seq. generalize (seq 0 n) as l.
  induction l as [|i l IH]; cbn; [reflexivity|]. rewrite IH. reflexivity.
Qed.

Lemma omap_pointwise {A B} (f g : A -> option B) (l : list A) :
  (forall a, f a = g a) -> omap f l = omap g l.
Proof.
  intros Hfg. induction l as [|a l IH]; cbn; [reflexivity|].
  rewrite Hfg, IH. reflexivity.
Qed.

(** The loop of [_join_text_chunks] from any pair of accumulators. *)
Lemma join_loop_spans (chunks : list dict) :
  Forall well_formed chunks ->
  forall (utterance : string) (entities : list entity),
    join_loop chunks utterance entities =
      Return (utterance +:+ utterance_of chunks,
              entities ++
              omap (fun i =>
                      match chunks !! i with
                      | Some chunk =>
                          span_after (utterance +:+ utterance_of (take i chunks)) chunk
                      | None => None
                      end)
                   (seq 0 (length chunks))).
Proof.
  induction 1 as [|chunk rest Hwf _ IH]; intros utterance entities; cbn.
  - rewrite str_app_nil_r, app_nil_r. reflexivity.
  - rewrite (extract_entity_span_after chunk utterance Hwf). cbn.
    destruct Hwf as [[t Ht] _]. unfold getitem. rewrite Ht. cbn.
    rewrite IH. unfold text_of at 1. rewrite Ht. cbn.
    rewrite str_app_assoc, str_app_nil_r. f_equal. f_equal.
    rewrite omap_seq_shift. cbn.
    assert (Hrest :
      omap (fun i => match rest !! i with
                  | Some c => span_after ((utterance +:+ t) +:+ utterance_of (take i rest)) c
                  | None => None
                  end) (seq 0 (length rest)) =
      omap (fun i => match rest !! i with
                  | Some c => span_after (utterance +:+ text_of chunk +:+ utterance_of (take i rest)) c
                  | None => None
                  end) (seq 0 (length rest))).
    { apply omap_pointwise.
      intros i. destruct (rest !! i); [|reflexivity].
      unfold text_of at 1. rewrite Ht. cbn. rewrite str_app_assoc. reflexivity. }
    rewrite Hrest.
    destruct (span_after utterance chunk); cbn; [rewrite <- app_assoc|]; reflexivity.
Qed.

Lemma join_text_chunks_spec (chunks : list dict) :
  Forall well_formed chunks ->
  _join_text_chunks chunks = Return (utterance_of chunks, spans_of chunks).
Proof.
  intros Hwf. unfold _join_text_chunks. rewrite (join_loop_spans chunks Hwf).
  reflexivity.
Qed.

(** The claim's own example: the label keeps the [@] of the [meta] field. *)
Lemma join_text_chunks_flight_type_refuted :
  _join_text_chunks [chunk_book; chunk_flight] <>
    Return ("book a flight", [build_entity 7 13 "flight" "flight_type"]) /\
  _join_text_chunks [chunk_book; chunk_flight] =
    Return ("book a flight", [build_entity 7 13 "flight" "@flight_type"]).
Proof.
  split; [|vm_compute; reflexivity].
  vm_compute. intros H. discriminate H.
Qed.

(** C1 (amended). For chunks that all carry a text and whose aliases come
    with a meta, the intent path builds the utterance by concatenating the
    chunk texts in order, and its spans are those of the running-offset
    rule, one per chunk whose label is not the ignore marker, in order: the
    span of the [i]-th chunk starts at the length of the utterance built from
    the chunks before it, ends at start plus the length of the chunk's text,
    covers that text and is labelled with [alias] if present, else [meta]. *)
Theorem join_text_chunks_running_offset (chunks : list dict) :
  Forall well_formed chunks ->
  _join_text_chunks chunks = Return (utterance_of chunks, spans_of chunks) /\
  (forall intent_js synonyms,
     _read_intent intent_js [mkExample (Some chunks) synonyms] =
       Return (mkTrainingData
                 (Some [Message_build (utterance_of chunks) (intent_js !! "name")
                          (spans_of chunks)])
                 None None None)) /\
  (forall i chunk l,
     chunks !! i = Some chunk -> label chunk = Some l -> l <> ignore_marker ->
     span_at chunks i =
       Some (build_entity
               (len (utterance_of (take i chunks)))
               (len (utterance_of (take i chunks)) + len (text_of chunk))
               (text_of chunk) l)) /\
  (forall i chunk,
     chunks !! i = Some chunk ->
     label chunk = None \/ label chunk = Some ignore_marker ->
     span_at chunks i = None).
Proof.
  intros Hwf. pose proof (join_text_chunks_spec chunks Hwf) as Hjoin.
  split; [exact Hjoin|]. split; [|split].
  - intros intent_js synonyms. unfold _read_intent. cbn.
    rewrite Hjoin. reflexivity.
  - intros i chunk l Hi Hl Hne. unfold span_at, span_after.
    rewrite Hi, Hl. rewrite decide_False by assumption. reflexivity.
  - intros i chunk Hi [Hl|Hl]; unfold span_at, span_after; rewrite Hi, Hl.
    + reflexivity.
    + rewrite decide_True by reflexivity. reflexivity.
Qed.

Lemma well_formed_book_flight : Forall well_formed [chunk_book; chunk_flight].
Proof.
  repeat constructor.
  - exists "book a ". reflexivity.
  - intros [a Ha]. vm_compute in Ha. discriminate Ha.
  - exists "flight". reflexivity.
  - intros _. exists "@flight_type". reflexivity.
Qed.

Lemma join_text_chunks_running_offset_witness :
  _join_text_chunks [chunk_book; chunk_flight] =
    Return ("book a flight", [build_entity 7 13 "flight" "@flight_type"]).
Proof.
  rewrite (proj1 (join_text_chunks_running_offset [chunk_book; chunk_flight]
                    well_formed_book_flight)).
  vm_compute. reflexivity.
Defined.

(** C2. A chunk with an [alias] and no [meta] passes the test for an
    annotation, and then [chunk["meta"]], evaluated as the default of [get],
    raises [KeyError]: no span labelled with the alias is made. *)
Theorem alias_only_chunk_raises_KeyError :
  _extract_entity chunk_alias_only 0 = Raise (KeyError "meta") /\
  _join_text_chunks [chunk_alias_only] = Raise (KeyError "meta") /\
  label chunk_alias_only = Some "flight_type".
Proof. repeat split; vm_compute; reflexivity. Qed.

(** With a [meta] present, the label of the span is [alias] if present,
    else [meta]. *)
Lemma extract_entity_label (chunk : dict) (off : Z) (e : entity) :
  _extract_entity chunk off = Return (Some e) ->
  label chunk = Some (span_type e) /\ span_type e <> ignore_marker.
Proof.
  unfold _extract_entity, label, getitem, get_default.
  destruct (contains "meta" chunk || contains "alias" chunk); [|discriminate].
  destruct (chunk !! "text") as [t|]; [|discriminate]. cbn.
  destruct (chunk !! "meta") as [m|]; [|discriminate]. cbn.
  destruct (chunk !! "alias") as [a|]; cbn.
  - destruct (String.eqb_spec a ignore_marker) as [->|Hne]; cbn; [discriminate|].
    intros H. inversion H; subst. cbn. auto.
  - destruct (String.eqb_spec m ignore_marker) as [->|Hne]; cbn; [discriminate|].
    intros H. inversion H; subst. cbn. auto.
Qed.

(** ** The ignore marker *)

Lemma join_loop_not_ignored (chunks : list dict) :
  forall utterance entities utterance' entities',
    Forall not_ignored entities ->
    join_loop chunks utterance entities = Return (utterance', entities') ->
    Forall not_ignored entities'.
Proof.
  induction chunks as [|chunk rest IH]; intros u es u' es' Hes; cbn.
  - intros H. inversion H; subst. exact Hes.
  - destruct (_extract_entity chunk (len u)) as [[e|]|x] eqn:He; cbn;
      [| |discriminate].
    + destruct (getitem chunk "text") as [t|x]; cbn; [|discriminate].
      apply IH. apply Forall_app. split; [exact Hes|].
      constructor; [|constructor].
      apply (extract_entity_label chunk (len u) e He).
    + destruct (getitem chunk "text") as [t|x]; cbn; [|discriminate].
      apply IH. exact Hes.
Qed.

Lemma intent_loop_not_ignored (intent : option string) (examples_js : list example_js) :
  forall acc messages,
    Forall not_ignored (concat (map msg_entities acc)) ->
    intent_loop intent examples_js acc = Return messages ->
    Forall not_ignored (concat (map msg_entities messages)).
Proof.
  induction examples_js as [|ex rest IH]; intros acc messages Hacc; cbn.
  - intros H. inversion H; subst. exact Hacc.
  - destruct (ex_data ex) as [data|]; cbn; [|discriminate].
    destruct (_join_text_chunks data) as [[u es]|x] eqn:Hj; cbn; [|discriminate].
    apply IH. rewrite map_app, concat_app. apply Forall_app. split; [exact Hacc|].
    cbn. rewrite app_nil_r.
    apply (join_loop_not_ignored data "" [] u es); [constructor|exact Hj].
Qed.

Lemma read_intent_not_ignored (intent_js : dict) (examples_js : list example_js)
    (td : TrainingData) :
  _read_intent intent_js examples_js = Return td ->
  Forall not_ignored (spans_of_batch td).
Proof.
  unfold _read_intent.
  destruct (intent_loop (get intent_js "name") examples_js []) as [ms|x] eqn:Hl;
    cbn; [|discriminate].
  intros H. inversion H; subst. unfold spans_of_batch. cbn.
  apply (intent_loop_not_ignored (get intent_js "name") examples_js [] ms);
    [constructor|exact Hl].
Qed.

(** What [read] returns is the empty batch, a batch of [_read_intent], or a
    batch of [_read_entities]. *)
Lemma read_returns (w : Externals) (fn : string) (kwargs : dict) (td : TrainingData) :
  outcome (read w fn kwargs) = Return td ->
  td = TrainingData_empty \/
  (exists root_js examples, _read_intent root_js examples = Return td) \/
  (exists root_js examples, td = _read_entities w root_js examples).
Proof.
  unfold read, _read_examples_js, os_path_isfile, read_json_file_root,
    read_json_file_examples, warn, outcome, bind, lift, ret, raise, tell.
  destruct (getitem kwargs "language") as [language|x]; cbn; [|discriminate].
  destruct (getitem kwargs "fformat") as [fformat|x]; cbn; [|discriminate].
  destruct (negb _); cbn; [discriminate|].
  destruct (read_root_json w fn) as [root_js|x]; cbn; [|discriminate].
  destruct (isfile w (examples_fn fn language fformat)); cbn.
  - destruct (read_examples_json w (examples_fn fn language fformat))
      as [[|ex examples]|x]; cbn; [| |discriminate].
    + intros H. inversion H. left. reflexivity.
    + destruct (String.eqb fformat DIALOGFLOW_INTENT); cbn.
      * intros H. right. left. eauto.
      * intros H. inversion H. right. right. eauto.
  - intros H. inversion H. left. reflexivity.
Qed.

(** C3. A chunk whose label is the ignore marker gives no span: on any such
    chunk [_extract_entity] returns no span, on a chunk the reader takes it
    returns [None]; and no span of [_extract_entity], of [_join_text_chunks]
    or of a batch that [read] returns has the ignore marker as its type. *)
Theorem ignore_marker_never_a_span :
  (forall chunk off e,
     label chunk = Some ignore_marker ->
     _extract_entity chunk off <> Return (Some e)) /\
  (forall chunk off,
     well_formed chunk -> label chunk = Some ignore_marker ->
     _extract_entity chunk off = Return None) /\
  (forall chunk off e,
     _extract_entity chunk off = Return (Some e) -> span_type e <> ignore_marker) /\
  (forall chunks utterance entities,
     _join_text_chunks chunks = Return (utterance, entities) ->
     Forall (fun e => span_type e <> ignore_marker) entities) /\
  (forall w fn kwargs td,
     outcome (read w fn kwargs) = Return td ->
     Forall (fun e => span_type e <> ignore_marker) (spans_of_batch td)).
Proof.
  repeat split.
  - intros chunk off e Hl He.
    destruct (extract_entity_label chunk off e He) as [Hl' Hne].
    rewrite Hl in Hl'. inversion Hl'. congruence.
  - intros chunk off [[t Ht] Hmeta] Hl. unfold label in Hl.
    unfold _extract_entity, getitem, get_default. rewrite Ht. cbn.
    destruct (chunk !! "alias") as [a|] eqn:Ha.
    + destruct Hmeta as [m Hm]; [eauto|]. rewrite Hm.
      rewrite (contains_Some _ _ _ Hm). cbn. inversion Hl; subst. reflexivity.
    + rewrite Hl. rewrite (contains_Some _ _ _ Hl). cbn. reflexivity.
  - intros chunk off e He. apply (extract_entity_label chunk off e He).
  - intros chunks u es Hj.
    apply (join_loop_not_ignored chunks "" [] u es); [constructor|exact Hj].
  - intros w fn kwargs td Hr.
    destruct (read_returns w fn kwargs td Hr) as [->|[(r & ex & H)|(r & ex & ->)]].
    + constructor.
    + apply (read_intent_not_ignored r ex td H).
    + constructor.
Qed.

Lemma ignore_marker_never_a_span_witness :
  _extract_entity chunk_ignored 7 = Return None /\
  _join_text_chunks [chunk_book; chunk_ignored] = Return ("book a please", []).
Proof.
  split.
  - apply (proj1 (proj2 ignore_marker_never_a_span) chunk_ignored 7%Z).
    + split; [exists "please"; reflexivity|].
      intros [a Ha]. vm_compute in Ha. discriminate Ha.
    + reflexivity.
  - vm_compute. reflexivity.
Defined.

(** ** The examples file *)

Lemma prefix_json_snoc (c : ascii) (b : string) :
  String.prefix ".json" (String c b) = false ->
  String.prefix ".json" (String c b +:+ ".json") = false.
Proof.
  rewrite str_app_cons. cbn [String.prefix].
  destruct (Ascii.ascii_dec "." c); [|reflexivity].
  destruct b as [|c2 b]; [intros _; reflexivity|].
  rewrite str_app_cons. cbn [String.prefix].
  destruct (Ascii.ascii_dec "j" c2); [|reflexivity].
  destruct b as [|c3 b]; [intros _; reflexivity|].
  rewrite str_app_cons. cbn [String.prefix].
  destruct (Ascii.ascii_dec "s" c3); [|reflexivity].
  destruct b as [|c4 b]; [intros _; reflexivity|].
  rewrite str_app_cons. cbn [String.prefix].
  destruct (Ascii.ascii_dec "o" c4); [|reflexivity].
  destruct b as [|c5 b]; [intros _; reflexivity|].
  rewrite str_app_cons. cbn [String.prefix].
  destruct (Ascii.ascii_dec "n" c5); [|reflexivity].
  rewrite !prefix_nil. discriminate.
Qed.

(** Where [.json] occurs only as the extension, [replace] swaps the
    extension. *)
Lemma replace_extension (new base : string) :
  str_in ".json" base = false ->
  replace (base +:+ ".json") ".json" new = base +:+ new.
Proof.
  unfold replace. induction base as [|c b IH]; intros Hin.
  - change ("" +:+ ".json") with ".json". change ("" +:+ new) with new.
    cbn. rewrite str_app_nil_r. reflexivity.
  - cbn [str_in] in Hin. apply orb_false_iff in Hin. destruct Hin as [Hp Hb].
    pose proof (prefix_json_snoc c b Hp) as Hp'.
    rewrite str_app_cons in *. cbn [replace_from]. rewrite Hp'.
    rewrite (IH Hb). reflexivity.
Qed.

Lemma examples_fn_extension (base language fformat : string) :
  str_in ".json" base = false ->
  examples_fn (base +:+ ".json") language fformat =
    base +:+ "_" +:+ examples_kind fformat +:+ "_" +:+ language +:+ ".json".
Proof.
  intros Hin. unfold examples_fn, examples_kind. apply replace_extension, Hin.
Qed.

(** ** [read], step by step *)

Lemma getitem_Some (d : dict) (k v : string) : d !! k = Some v -> getitem d k = Return v.
Proof. unfold getitem. intros ->. reflexivity. Qed.

Lemma recognized_check (fformat : string) :
  recognized fformat ->
  negb (String.eqb fformat DIALOGFLOW_INTENT || String.eqb fformat DIALOGFLOW_ENTITIES) = false.
Proof. intros [->| ->]; reflexivity. Qed.

(** [read] on a recognized format and a readable root file. *)
Lemma read_recognized (w : Externals) (fn : string) (kwargs : dict)
    (language fformat : string) (root_js : dict) :
  kwargs !! "language" = Some language ->
  kwargs !! "fformat" = Some fformat ->
  recognized fformat ->
  read_root_json w fn = Return root_js ->
  read w fn kwargs =
    let efn := examples_fn fn language fformat in
    if isfile w efn then
      match read_examples_json w efn with
      | Return [] =>
          ([EvReadJson fn; EvIsFile efn; EvReadJson efn;
            EvWarn (no_examples_message fn)], Return TrainingData_empty)
      | Return (ex :: examples) =>
          ([EvReadJson fn; EvIsFile efn; EvReadJson efn],
           if String.eqb fformat DIALOGFLOW_INTENT
           then _read_intent root_js (ex :: examples)
           else Return (_read_entities w root_js (ex :: examples)))
      | Raise e => ([EvReadJson fn; EvIsFile efn; EvReadJson efn], Raise e)
      end
    else
      ([EvReadJson fn; EvIsFile efn; EvWarn (no_examples_message fn)],
       Return TrainingData_empty).
Proof.
  intros Hl Hf Hrec Hroot.
  unfold read, _read_examples_js, os_path_isfile, read_json_file_root,
    read_json_file_examples, warn, bind, lift, ret, raise, tell.
  rewrite (getitem_Some _ _ _ Hl), (getitem_Some _ _ _ Hf). cbn.
  rewrite (recognized_check fformat Hrec), Hroot. cbn.
  destruct (isfile w (examples_fn fn language fformat)); cbn; [|reflexivity].
  destruct (read_examples_json w (examples_fn fn language fformat))
    as [[|ex examples]|x]; cbn; try reflexivity.
  destruct (String.eqb fformat DIALOGFLOW_INTENT); cbn; [|reflexivity].
  destruct (_read_intent root_js (ex :: examples)); reflexivity.
Qed.

(** For a root path with [.json] as its extension only and a readable
    root file: the examples file is looked for where the extension is
    swapped, and when it is not there the batch is empty and a warning is
    given. *)
Lemma read_missing_examples (w : Externals) (base : string) (kwargs : dict)
    (language fformat : string) (root_js : dict) :
  kwargs !! "language" = Some language ->
  kwargs !! "fformat" = Some fformat ->
  recognized fformat ->
  str_in ".json" base = false ->
  read_root_json w (base +:+ ".json") = Return root_js ->
  isfile w (base +:+ "_" +:+ examples_kind fformat +:+ "_" +:+ language +:+ ".json") = false ->
  read w (base +:+ ".json") kwargs =
    ([EvReadJson (base +:+ ".json");
      EvIsFile (base +:+ "_" +:+ examples_kind fformat +:+ "_" +:+ language +:+ ".json");
      EvWarn (no_examples_message (base +:+ ".json"))],
     Return TrainingData_empty).
Proof.
  intros Hl Hf Hrec Hin Hroot Hfile.
  rewrite (read_recognized w _ kwargs language fformat root_js Hl Hf Hrec Hroot).
  cbv zeta. rewrite (examples_fn_extension base language fformat Hin), Hfile.
  reflexivity.
Qed.

(** C5. A root path in a directory whose name holds [.json]: the sibling
    examples file, with the extension of the root file swapped, exists and
    holds an example, but [read] swaps every [.json] of the path, looks for
    a file in another directory, warns and returns the empty batch. *)
Theorem examples_fn_replaces_every_occurrence :
  examples_fn "v1.json/greet.json" "en" DIALOGFLOW_INTENT =
    "v1_usersays_en.json/greet_usersays_en.json" /\
  isfile nested_export "v1.json/greet_usersays_en.json" = true /\
  read_examples_json nested_export "v1.json/greet_usersays_en.json" =
    Return [mkExample (Some [chunk_book; chunk_flight]) None] /\
  read nested_export "v1.json/greet.json" kwargs_intent_en =
    ([EvReadJson "v1.json/greet.json";
      EvIsFile "v1_usersays_en.json/greet_usersays_en.json";
      EvWarn (no_examples_message "v1.json/greet.json")],
     Return TrainingData_empty).
Proof. repeat split; vm_compute; reflexivity. Qed.

(** C8. With a format that is neither of the two recognized ones, [read]
    raises the [ValueError] on the format, and its trace is empty: no file
    was looked for or read. *)
Theorem unsupported_format_rejected (w : Externals) (fn : string) (kwargs : dict)
    (language fformat : string) :
  kwargs !! "language" = Some language ->
  kwargs !! "fformat" = Some fformat ->
  fformat <> DIALOGFLOW_INTENT -> fformat <> DIALOGFLOW_ENTITIES ->
  read w fn kwargs = ([], Raise (ValueError unsupported_format_message)) /\
  accesses (trace (read w fn kwargs)) = [].
Proof.
  intros Hl Hf Hi He.
  assert (Hread : read w fn kwargs = ([], Raise (ValueError unsupported_format_message))).
  { unfold read, bind, lift, raise.
    rewrite (getitem_Some _ _ _ Hl), (getitem_Some _ _ _ Hf). cbn.
    apply String.eqb_neq in Hi. apply String.eqb_neq in He.
    rewrite Hi, He. reflexivity. }
  rewrite Hread. split; reflexivity.
Qed.

Lemma unsupported_format_rejected_witness :
  read cities_export "cities.json" kwargs_unsupported =
    ([], Raise (ValueError unsupported_format_message)).
Proof.
  apply (unsupported_format_rejected cities_export "cities.json" kwargs_unsupported
           "en" "unsupported_value").
  - reflexivity.
  - reflexivity.
  - intros H. discriminate H.
  - intros H. discriminate H.
Defined.

(** C10. With a recognized format and a readable root file, an examples file
    that exists and holds an empty list makes [read] return the empty batch
    with the warning that no training examples were found; a missing
    examples file gives the same batch and the same warning. *)
Theorem empty_examples_file_warns (w : Externals) (fn : string) (kwargs : dict)
    (language fformat : string) (root_js : dict) :
  kwargs !! "language" = Some language ->
  kwargs !! "fformat" = Some fformat ->
  recognized fformat ->
  read_root_json w fn = Return root_js ->
  isfile w (examples_fn fn language fformat) = true ->
  read_examples_json w (examples_fn fn language fformat) = Return [] ->
  read w fn kwargs =
    ([EvReadJson fn;
      EvIsFile (examples_fn fn language fformat);
      EvReadJson (examples_fn fn language fformat);
      EvWarn (no_examples_message fn)],
     Return TrainingData_empty) /\
  (forall w' root_js',
     read_root_json w' fn = Return root_js' ->
     isfile w' (examples_fn fn language fformat) = false ->
     outcome (read w' fn kwargs) = outcome (read w fn kwargs) /\
     warnings (trace (read w' fn kwargs)) = warnings (trace (read w fn kwargs)) /\
     warnings (trace (read w fn kwargs)) = [no_examples_message fn]).
Proof.
  intros Hl Hf Hrec Hroot Hfile Hex.
  assert (Hread : read w fn kwargs =
    ([EvReadJson fn;
      EvIsFile (examples_fn fn language fformat);
      EvReadJson (examples_fn fn language fformat);
      EvWarn (no_examples_message fn)],
     Return TrainingData_empty)).
  { rewrite (read_recognized w fn kwargs language fformat root_js Hl Hf Hrec Hroot).
    cbv zeta. rewrite Hfile, Hex. reflexivity. }
  split; [exact Hread|].
  intros w' root_js' Hroot' Hfile'.
  rewrite Hread.
  rewrite (read_recognized w' fn kwargs language fformat root_js' Hl Hf Hrec Hroot').
  cbv zeta. rewrite Hfile'. repeat split; reflexivity.
Qed.

Lemma empty_examples_file_warns_witness :
  read greet_no_examples "greet.json" kwargs_intent_en =
    ([EvReadJson "greet.json"; EvIsFile "greet_usersays_en.json";
      EvReadJson "greet_usersays_en.json";
      EvWarn "No training examples found for dialogflow file greet.json!"],
     Return TrainingData_empty).
Proof.
  apply (proj1 (empty_examples_file_warns greet_no_examples "greet.json"
                  kwargs_intent_en "en" DIALOGFLOW_INTENT {[ "name" := "greet" ]}
                  eq_refl eq_refl (or_introl eq_refl) eq_refl eq_refl eq_refl)).
Defined.

(** ** Lookup tables *)

Lemma str_in_at (s : string) :
  str_in "@" s = false <-> "@"%char ∉ String.list_ascii_of_string s.
Proof.
  induction s as [|c s IH]; cbn [str_in String.list_ascii_of_string String.prefix].
  - split; [intros _ H; inversion H|reflexivity].
  - rewrite prefix_nil. destruct (Ascii.ascii_dec "@" c) as [<-|Hne]; cbn.
    + split; [discriminate|]. intros H. exfalso. apply H. constructor.
    + rewrite IH. split.
      * intros H Hin. inversion Hin; subst; [congruence|contradiction].
      * intros H Hin. apply H. constructor. exact Hin.
Qed.

Lemma filter_no_at (l : list string) :
  filter (fun synonym => negb (str_in "@" synonym) = true) l =
  filter (fun s => "@"%char ∉ String.list_ascii_of_string s) l.
Proof.
  apply list_filter_iff. intros s. rewrite negb_true_iff. apply str_in_at.
Qed.

Lemma extract_lookup_tables_spec (name : option string) (examples : list example_js) :
  _extract_lookup_tables name examples = expected_lookup_tables name examples.
Proof.
  unfold _extract_lookup_tables, expected_lookup_tables, lookup_elements, _flatten.
  rewrite filter_no_at.
  destruct (filter _ (concat (omap ex_synonyms examples))); reflexivity.
Qed.

(** C6. On the entities path, with the root file and the examples file
    read, the batch of [read] has the lookup table named after the root
    record's [name] whose elements are the synonym values of all example
    records, in order, that hold no [@]; and no lookup table when there is
    no such value. *)
Theorem lookup_table_of_entities (w : Externals) (fn : string) (kwargs : dict)
    (language : string) (root_js : dict) (examples : list example_js) :
  kwargs !! "language" = Some language ->
  kwargs !! "fformat" = Some DIALOGFLOW_ENTITIES ->
  read_root_json w fn = Return root_js ->
  isfile w (examples_fn fn language DIALOGFLOW_ENTITIES) = true ->
  read_examples_json w (examples_fn fn language DIALOGFLOW_ENTITIES) = Return examples ->
  (exists td,
     outcome (read w fn kwargs) = Return td /\
     lookup_tables td = expected_lookup_tables (root_js !! "name") examples) /\
  lookup_tables (_read_entities w root_js examples) =
    expected_lookup_tables (root_js !! "name") examples /\
  (lookup_elements examples = [] ->
     expected_lookup_tables (root_js !! "name") examples = None) /\
  (lookup_elements examples <> [] ->
     expected_lookup_tables (root_js !! "name") examples =
       Some [mkLookup (root_js !! "name") (lookup_elements examples)]) /\
  (forall s, s ∈ lookup_elements examples <->
     (("@"%char ∉ String.list_ascii_of_string s) /\
      exists ex l, ex ∈ examples /\ ex_synonyms ex = Some l /\ s ∈ l)).
Proof.
  intros Hl Hf Hroot Hfile Hex.
  assert (Hent : lookup_tables (_read_entities w root_js examples) =
                 expected_lookup_tables (root_js !! "name") examples).
  { unfold _read_entities. cbn. apply extract_lookup_tables_spec. }
  split; [|split; [exact Hent|split; [|split]]].
  - rewrite (read_recognized w fn kwargs language DIALOGFLOW_ENTITIES root_js
               Hl Hf (or_intror eq_refl) Hroot).
    cbv zeta. rewrite Hfile, Hex. destruct examples as [|ex examples].
    + exists TrainingData_empty. split; reflexivity.
    + exists (_read_entities w root_js (ex :: examples)). split; [reflexivity|].
      exact Hent.
  - intros Hnil. unfold expected_lookup_tables. rewrite Hnil. reflexivity.
  - intros Hne. unfold expected_lookup_tables.
    destruct (lookup_elements examples); [contradiction|reflexivity].
  - intros s. unfold lookup_elements. rewrite list_elem_of_filter.
    split; intros [Hat Hin]; (split; [exact Hat|]).
    + apply list_elem_of_In, in_concat in Hin. destruct Hin as (l & Hl' & Hs).
      apply list_elem_of_In, list_elem_of_omap in Hl'.
      destruct Hl' as (ex & Hex' & Hsyn).
      exists ex, l. repeat split; [exact Hex'|exact Hsyn|].
      apply list_elem_of_In. exact Hs.
    + destruct Hin as (ex & l & Hex' & Hsyn & Hs).
      apply list_elem_of_In, in_concat. exists l. split.
      * apply list_elem_of_In, list_elem_of_omap. exists ex. auto.
      * apply list_elem_of_In. exact Hs.
Qed.

Lemma lookup_table_of_entities_witness :
  exists td,
    outcome (read cities_export "cities.json" kwargs_entities_en) = Return td /\
    lookup_tables td = Some [mkLookup (Some "cities") ["NYC"; "New York"]].
Proof.
  destruct (proj1 (lookup_table_of_entities cities_export "cities.json"
                     kwargs_entities_en "en" {[ "name" := "cities" ]}
                     [mkExample None (Some ["NYC"; "New York"; "@city_ref"])]
                     eq_refl eq_refl eq_refl eq_refl eq_refl))
    as (td & Hread & Htables).
  exists td. split; [exact Hread|]. rewrite Htables. vm_compute. reflexivity.
Defined.

(** ** Further properties of the reader *)

(** A chunk is taken, or it stops the loop with a [KeyError]. *)
Lemma chunk_step (chunk : dict) (off : Z) :
  (well_formed chunk /\
   exists o t, _extract_entity chunk off = Return o /\
               getitem chunk "text" = Return t) \/
  (~ well_formed chunk /\
   (_extract_entity chunk off = Raise (KeyError "text") \/
    _extract_entity chunk off = Raise (KeyError "meta") \/
    (_extract_entity chunk off = Return None /\
     getitem chunk "text" = Raise (KeyError "text")))).
Proof.
  unfold well_formed, _extract_entity, getitem, get_default.
  destruct (chunk !! "text") as [t|] eqn:Ht;
  destruct (chunk !! "meta") as [m|] eqn:Hm;
  destruct (chunk !! "alias") as [a|] eqn:Ha;
  rewrite ?(contains_Some _ _ _ Hm), ?(contains_None _ _ Hm),
          ?(contains_Some _ _ _ Ha), ?(contains_None _ _ Ha); cbn.
  - left. split; [split; eauto|].
    destruct (negb (String.eqb a ignore_marker)); eauto.
  - left. split; [split; [eauto|intros [x Hx]; discriminate Hx]|].
    destruct (negb (String.eqb m ignore_marker)); eauto.
  - right. split; [|auto]. intros [_ H]. destruct H as [x Hx]; [eauto|discriminate Hx].
  - left. split; [split; [eauto|intros [x Hx]; discriminate Hx]|]. eauto.
  - right. split; [|auto]. intros [[x Hx] _]. discriminate Hx.
  - right. split; [|auto]. intros [[x Hx] _]. discriminate Hx.
  - right. split; [|auto]. intros [[x Hx] _]. discriminate Hx.
  - right. split; [|auto]. intros [[x Hx] _]. discriminate Hx.
Qed.

Lemma join_loop_outcome (chunks : list dict) :
  forall utterance entities,
    (Forall well_formed chunks /\
     exists r, join_loop chunks utterance entities = Return r) \/
    (~ Forall well_formed chunks /\
     (join_loop chunks utterance entities = Raise (KeyError "text") \/
      join_loop chunks utterance entities = Raise (KeyError "meta"))).
Proof.
  induction chunks as [|chunk rest IH]; intros u es; cbn.
  - left. split; [constructor|eauto].
  - destruct (chunk_step chunk (len u))
      as [[Hwf (o & t & He & Ht)]|[Hnwf [He|[He|[He Ht]]]]];
      rewrite He; cbn; rewrite ?Ht; cbn.
    + destruct (IH (u +:+ t) (match o with Some e => es ++ [e] | None => es end))
        as [[Hall Hr]|[Hnall Hr]].
      * left. split; [constructor; assumption|exact Hr].
      * right. split; [|exact Hr]. intros H. inversion H; subst. auto.
    + right. split; [|auto]. intros H. inversion H; subst. auto.
    + right. split; [|auto]. intros H. inversion H; subst. auto.
    + right. split; [|auto]. intros H. inversion H; subst. auto.
Qed.

(** X8. [_join_text_chunks] returns exactly on the chunk lists in which
    every chunk has a text and every alias comes with a meta; on any other
    list it raises [KeyError("text")] or [KeyError("meta")]. *)
Theorem join_text_chunks_returns_iff (chunks : list dict) :
  ((exists r, _join_text_chunks chunks = Return r) <-> Forall well_formed chunks) /\
  (forall e, _join_text_chunks chunks = Raise e ->
     ~ Forall well_formed chunks /\ (e = KeyError "text" \/ e = KeyError "meta")).
Proof.
  unfold _join_text_chunks.
  destruct (join_loop_outcome chunks "" []) as [[Hall [r Hr]]|[Hnall Hr]].
  - split.
    + split; [intros _; exact Hall|intros _; eauto].
    + intros e He. rewrite Hr in He. discriminate He.
  - split.
    + split; [|intros H; contradiction].
      intros [r H]. destruct Hr as [Hr|Hr]; rewrite Hr in H; discriminate H.
    + intros e He. split; [exact Hnall|].
      destruct Hr as [Hr|Hr]; rewrite Hr in He; inversion He; auto.
Qed.

(** *** Spans and the utterance *)

Lemma substring_prefix_whole (t : string) : String.substring 0 (String.length t) t = t.
Proof. induction t as [|c t IH]; cbn; [reflexivity|]. rewrite IH. reflexivity. Qed.

Lemma substring_exact (u t : string) :
  String.substring (String.length u) (String.length t) (u +:+ t) = t.
Proof.
  induction u as [|c u IH]; [apply substring_prefix_whole|].
  rewrite str_app_cons. cbn. exact IH.
Qed.

Lemma substring_app_l (u t : string) :
  forall n m, n + m <= String.length u ->
    String.substring n m (u +:+ t) = String.substring n m u.
Proof.
  induction u as [|c u IH]; intros n m Hle.
  - cbn in Hle. assert (n = 0) as -> by lia. assert (m = 0) as -> by lia.
    change ("" +:+ t) with t. destruct t; reflexivity.
  - rewrite str_app_cons. cbn in Hle. destruct n as [|n]; cbn.
    + destruct m as [|m]; [reflexivity|]. rewrite IH by lia. reflexivity.
    + apply IH. lia.
Qed.

(** The span of a chunk starts at the offset and covers the chunk's text. *)
Lemma extract_entity_shape (chunk : dict) (off : Z) (e : entity) :
  _extract_entity chunk off = Return (Some e) ->
  exists t, getitem chunk "text" = Return t /\
            e = build_entity off (off + len t) t (span_type e).
Proof.
  unfold _extract_entity, getitem, get_default.
  destruct (contains "meta" chunk || contains "alias" chunk); [|discriminate].
  destruct (chunk !! "text") as [t|]; [|discriminate]. cbn.
  destruct (chunk !! "meta") as [m|]; [|discriminate]. cbn.
  destruct (negb _); [|discriminate].
  intros H. inversion H; subst. cbn. eauto.
Qed.

Lemma covers_app (u t : string) (e : entity) : covers u e -> covers (u +:+ t) e.
Proof.
  unfold covers. intros (H0 & He & Hle & Hsub). rewrite len_app.
  repeat split; try assumption.
  - unfold len in *. lia.
  - rewrite substring_app_l; [exact Hsub|]. unfold len in *. lia.
Qed.

Lemma covers_new (u t ty : string) :
  covers (u +:+ t) (build_entity (len u) (len u + len t) t ty).
Proof.
  unfold covers. cbn. rewrite len_app. unfold len.
  repeat split; try lia.
  rewrite Nat2Z.id. apply substring_exact.
Qed.

Lemma in_text_order_snoc (u : string) (es : list entity) (e : entity) :
  Forall (covers u) es -> in_text_order es -> span_start e = len u ->
  in_text_order (es ++ [e]).
Proof.
  intros Hcov Hord Hstart i j ei ej Hij Hi Hj.
  destruct (decide (j < length es)) as [Hlt|Hge].
  - rewrite lookup_app_l in Hi by lia. rewrite lookup_app_l in Hj by lia.
    apply (Hord i j ei ej Hij Hi Hj).
  - rewrite lookup_app_r in Hj by lia.
    destruct (j - length es) as [|k] eqn:Hk; cbn in Hj; [|discriminate].
    inversion Hj; subst ej. assert (Hilt : i < length es) by lia.
    rewrite lookup_app_l in Hi by lia.
    rewrite Forall_forall in Hcov.
    destruct (Hcov ei) as (_ & _ & Hle & _).
    { apply list_elem_of_lookup. eauto. }
    rewrite Hstart. exact Hle.
Qed.

Lemma join_loop_covers (chunks : list dict) :
  forall u es u' es',
    Forall (covers u) es -> in_text_order es ->
    join_loop chunks u es = Return (u', es') ->
    Forall (covers u') es' /\ in_text_order es' /\
    length es' <= length es + length chunks.
Proof.
  induction chunks as [|chunk rest IH]; intros u es u' es' Hcov Hord; cbn.
  - intros H. inversion H; subst. repeat split; [assumption|assumption|lia].
  - destruct (_extract_entity chunk (len u)) as [[e|]|x] eqn:He; cbn;
      [| |discriminate].
    + destruct (extract_entity_shape chunk (len u) e He) as (t & Ht & Hshape).
      rewrite Ht. cbn. intros Hrun.
      destruct (IH (u +:+ t) (es ++ [e]) u' es') as (H1 & H2 & H3).
      * apply Forall_app. split.
        -- eapply Forall_impl; [exact Hcov|]. intros x Hx. apply covers_app, Hx.
        -- constructor; [|constructor]. rewrite Hshape. apply covers_new.
      * apply (in_text_order_snoc u es e Hcov Hord). rewrite Hshape. reflexivity.
      * exact Hrun.
      * repeat split; [assumption|assumption|].
        rewrite length_app in H3. cbn in H3. lia.
    + destruct (getitem chunk "text") as [t|x]; cbn; [|discriminate].
      intros Hrun.
      destruct (IH (u +:+ t) es u' es') as (H1 & H2 & H3).
      * eapply Forall_impl; [exact Hcov|]. intros x Hx. apply covers_app, Hx.
      * exact Hord.
      * exact Hrun.
      * repeat split; [assumption|assumption|lia].
Qed.

(** X9. Every span [_join_text_chunks] returns lies inside the returned
    utterance and covers its own text there: its start is not negative, its
    end is its start plus the length of its text and not beyond the end of
    the utterance, and the utterance from start to end is the span's text. *)
Theorem spans_cover_their_text (chunks : list dict) (utterance : string)
    (entities : list entity) :
  _join_text_chunks chunks = Return (utterance, entities) ->
  Forall (covers utterance) entities.
Proof.
  intros Hrun.
  apply (join_loop_covers chunks "" [] utterance entities); try assumption.
  - constructor.
  - intros i j ei ej _ Hi. discriminate Hi.
Qed.

Lemma spans_cover_their_text_witness :
  Forall (covers "book a flight") [build_entity 7 13 "flight" "@flight_type"].
Proof.
  apply (spans_cover_their_text [chunk_book; chunk_flight]).
  vm_compute. reflexivity.
Defined.

(** X10. The spans [_join_text_chunks] returns come in the order of the
    text and do not overlap: a span ends where a later one starts, or
    before; and there are no more spans than chunks. *)
Theorem spans_in_text_order (chunks : list dict) (utterance : string)
    (entities : list entity) :
  _join_text_chunks chunks = Return (utterance, entities) ->
  in_text_order entities /\ length entities <= length chunks.
Proof.
  intros Hrun.
  destruct (join_loop_covers chunks "" [] utterance entities) as (_ & H2 & H3).
  - constructor.
  - intros i j ei ej _ Hi. discriminate Hi.
  - exact Hrun.
  - split; [exact H2|exact H3].
Qed.

Lemma spans_in_text_order_witness :
  in_text_order [build_entity 0 5 "book " "@verb"; build_entity 7 13 "flight" "@flight_type"] /\
  2 <= 3.
Proof.
  apply (spans_in_text_order
           [ {[ "text" := "book "; "meta" := "@verb" ]};
             {[ "text" := "a " ]}; chunk_flight ] "book a flight").
  vm_compute. reflexivity.
Defined.

(** *** Chunk lists put together *)

Lemma extract_entity_shift (chunk : dict) (off d : Z) :
  _extract_entity chunk (off + d) =
    match _extract_entity chunk off with
    | Return o => Return (shift d <$> o)
    | Raise x => Raise x
    end.
Proof.
  unfold _extract_entity.
  destruct (contains "meta" chunk || contains "alias" chunk); [|reflexivity].
  destruct (getitem chunk "text") as [t|x]; cbn; [|reflexivity].
  destruct (getitem chunk "meta") as [m|x]; cbn; [|reflexivity].
  destruct (negb _); [|reflexivity].
  cbn. unfold shift. cbn. do 3 f_equal. lia.
Qed.

Lemma join_loop_shift (chunks : list dict) (u : string) (es : list entity) :
  forall v es' v' es'',
    join_loop chunks v es' = Return (v', es'') ->
    join_loop chunks (u +:+ v) (es ++ map (shift (len u)) es') =
      Return (u +:+ v', es ++ map (shift (len u)) es'').
Proof.
  induction chunks as [|chunk rest IH]; intros v es' v' es''; cbn.
  - intros H. inversion H; subst. reflexivity.
  - rewrite len_app, (Z.add_comm (len u) (len v)), extract_entity_shift.
    destruct (_extract_entity chunk (len v)) as [o|x]; cbn; [|discriminate].
    destruct (getitem chunk "text") as [t|x]; cbn; [|discriminate].
    intros Hrun. rewrite str_app_assoc.
    destruct o as [e|]; cbn.
    + rewrite <- app_assoc.
      change (map (shift (len u)) es' ++ [shift (len u) e])
        with (map (shift (len u)) es' ++ map (shift (len u)) [e]).
      rewrite <- map_app. apply IH. exact Hrun.
    + apply IH. exact Hrun.
Qed.

Lemma join_loop_app (a b : list dict) :
  forall u es,
    join_loop (a ++ b) u es =
      match join_loop a u es with
      | Return (u', es') => join_loop b u' es'
      | Raise x => Raise x
      end.
Proof.
  induction a as [|chunk rest IH]; intros u es; cbn; [reflexivity|].
  destruct (_extract_entity chunk (len u)) as [o|x]; cbn; [|reflexivity].
  destruct (getitem chunk "text") as [t|x]; cbn; [|reflexivity].
  apply IH.
Qed.

(** X11. [_join_text_chunks] goes along with putting chunk lists one after
    the other: the utterance of [a ++ b] is the utterance of [a] followed by
    that of [b], and its spans are those of [a] followed by those of [b]
    moved to the right by the length of the utterance of [a]. *)
Theorem join_text_chunks_app (a b : list dict) (ua ub : string)
    (ea eb : list entity) :
  _join_text_chunks a = Return (ua, ea) ->
  _join_text_chunks b = Return (ub, eb) ->
  _join_text_chunks (a ++ b) =
    Return (ua +:+ ub, ea ++ map (shift (len ua)) eb).
Proof.
  unfold _join_text_chunks. intros Ha Hb.
  rewrite join_loop_app, Ha.
  pose proof (join_loop_shift b ua ea "" [] ub eb Hb) as H.
  rewrite str_app_nil_r, app_nil_r in H. exact H.
Qed.

Lemma join_text_chunks_app_witness :
  _join_text_chunks ([chunk_book; chunk_flight] ++ [chunk_book; chunk_flight]) =
    Return ("book a flightbook a flight",
            [build_entity 7 13 "flight" "@flight_type";
             build_entity 20 26 "flight" "@flight_type"]).
Proof.
  rewrite (join_text_chunks_app [chunk_book; chunk_flight] [chunk_book; chunk_flight]
             "book a flight" "book a flight"
             [build_entity 7 13 "flight" "@flight_type"]
             [build_entity 7 13 "flight" "@flight_type"]).
  - vm_compute. reflexivity.
  - vm_compute. reflexivity.
  - vm_compute. reflexivity.
Defined.

(** *** The intent path *)

Lemma intent_loop_messages (intent : option string) (examples_js : list example_js) :
  Forall well_formed_example examples_js ->
  forall acc,
    intent_loop intent examples_js acc =
      Return (acc ++ map (message_of intent) examples_js).
Proof.
  induction 1 as [|ex rest (data & Hd & Hwf) _ IH]; intros acc; cbn.
  - rewrite app_nil_r. reflexivity.
  - rewrite Hd. cbn. rewrite (join_text_chunks_spec data Hwf). cbn.
    rewrite IH, <- app_assoc. unfold message_of at 2. rewrite Hd. reflexivity.
Qed.

Lemma read_intent_messages (intent_js : dict) (examples_js : list example_js) :
  Forall well_formed_example examples_js ->
  _read_intent intent_js examples_js =
    Return (mkTrainingData
              (Some (map (message_of (intent_js !! "name")) examples_js))
              None None None).
Proof.
  intros Hwf. unfold _read_intent, get.
  rewrite (intent_loop_messages (intent_js !! "name") examples_js Hwf []).
  reflexivity.
Qed.

(** X12. On example records that all have a ["data"] list of chunks the
    reader takes, [_read_intent] returns one training example per record,
    in the order of the records, each with the utterance and the spans of its
    chunks and with the root record's [name] as intent ([None] when the root
    record has no name); nothing else is in the batch. *)
Theorem read_intent_one_message_per_record (intent_js : dict)
    (examples_js : list example_js) :
  Forall well_formed_example examples_js ->
  _read_intent intent_js examples_js =
    Return (mkTrainingData
              (Some (map (message_of (intent_js !! "name")) examples_js))
              None None None).
Proof. apply read_intent_messages. Qed.

Lemma well_formed_ignored : well_formed chunk_ignored.
Proof.
  split; [exists "please"; reflexivity|].
  intros [a Ha]. vm_compute in Ha. discriminate Ha.
Qed.

Lemma read_intent_one_message_per_record_witness :
  _read_intent {[ "name" := "greet" ]}
    [mkExample (Some [chunk_book; chunk_flight]) None;
     mkExample (Some [chunk_ignored]) None] =
  Return (mkTrainingData
            (Some [Message_build "book a flight" (Some "greet")
                     [build_entity 7 13 "flight" "@flight_type"];
                   Message_build "please" (Some "greet") []])
            None None None).
Proof.
  rewrite (read_intent_one_message_per_record {[ "name" := "greet" ]}
             [mkExample (Some [chunk_book; chunk_flight]) None;
              mkExample (Some [chunk_ignored]) None]).
  - vm_compute. reflexivity.
  - constructor; [|constructor; [|constructor]].
    + exists [chunk_book; chunk_flight]. split; [reflexivity|].
      exact well_formed_book_flight.
    + exists [chunk_ignored]. split; [reflexivity|].
      constructor; [exact well_formed_ignored|constructor].
Defined.

Lemma intent_loop_missing_data (intent : option string) (before : list example_js)
    (ex : example_js) (rest : list example_js) :
  Forall well_formed_example before ->
  ex_data ex = None ->
  forall acc, intent_loop intent (before ++ ex :: rest) acc = Raise (KeyError "data").
Proof.
  induction 1 as [|ex0 before0 (data & Hd & Hwf) _ IH]; intros Hnone acc; cbn.
  - rewrite Hnone. reflexivity.
  - rewrite Hd. cbn. rewrite (join_text_chunks_spec data Hwf). cbn.
    apply IH. exact Hnone.
Qed.

(** X13. An example record without a ["data"] key makes [_read_intent]
    raise [KeyError("data")], whatever comes after it, when the records
    before it are taken: no batch is returned, not even for the records
    before. *)
Theorem read_intent_missing_data (intent_js : dict) (before : list example_js)
    (ex : example_js) (rest : list example_js) :
  Forall well_formed_example before ->
  ex_data ex = None ->
  _read_intent intent_js (before ++ ex :: rest) = Raise (KeyError "data").
Proof.
  intros Hwf Hnone. unfold _read_intent.
  rewrite (intent_loop_missing_data _ before ex rest Hwf Hnone). reflexivity.
Qed.

Lemma read_intent_missing_data_witness :
  _read_intent {[ "name" := "greet" ]}
    ([mkExample (Some [chunk_ignored]) None] ++
     mkExample None (Some ["hi"]) :: [mkExample (Some [chunk_book]) None]) =
  Raise (KeyError "data").
Proof.
  apply (read_intent_missing_data {[ "name" := "greet" ]}
           [mkExample (Some [chunk_ignored]) None]
           (mkExample None (Some ["hi"])) [mkExample (Some [chunk_book]) None]).
  - constructor; [|constructor].
    exists [chunk_ignored]. split; [reflexivity|].
    constructor; [exact well_formed_ignored|constructor].
  - reflexivity.
Defined.

(** *** [read] as a whole *)

(** X14. The intent path from end to end: on the intent format, with the
    root file read and an examples file that holds at least one record, all
    of them taken, [read] reads the root file, looks for and reads the
    examples file, gives no warning and returns one training example per
    record. *)
Theorem read_intent_batch (w : Externals) (fn : string) (kwargs : dict)
    (language : string) (root_js : dict) (ex : example_js)
    (examples : list example_js) :
  kwargs !! "language" = Some language ->
  kwargs !! "fformat" = Some DIALOGFLOW_INTENT ->
  read_root_json w fn = Return root_js ->
  isfile w (examples_fn fn language DIALOGFLOW_INTENT) = true ->
  read_examples_json w (examples_fn fn language DIALOGFLOW_INTENT) =
    Return (ex :: examples) ->
  Forall well_formed_example (ex :: examples) ->
  read w fn kwargs =
    ([EvReadJson fn;
      EvIsFile (examples_fn fn language DIALOGFLOW_INTENT);
      EvReadJson (examples_fn fn language DIALOGFLOW_INTENT)],
     Return (mkTrainingData
               (Some (map (message_of (root_js !! "name")) (ex :: examples)))
               None None None)).
Proof.
  intros Hl Hf Hroot Hfile Hex Hwf.
  rewrite (read_recognized w fn kwargs language DIALOGFLOW_INTENT root_js
             Hl Hf (or_introl eq_refl) Hroot).
  cbv zeta. rewrite Hfile, Hex.
  rewrite (read_intent_messages root_js (ex :: examples) Hwf).
  reflexivity.
Qed.

Lemma read_intent_batch_witness :
  outcome (read greet_export "greet.json" kwargs_intent_en) =
    Return (mkTrainingData
              (Some [Message_build "book a flight" (Some "greet")
                       [build_entity 7 13 "flight" "@flight_type"];
                     Message_build "please" (Some "greet") []])
              None None None).
Proof.
  rewrite (read_intent_batch greet_export "greet.json" kwargs_intent_en "en"
             {[ "name" := "greet" ]}
             (mkExample (Some [chunk_book; chunk_flight]) None)
             [mkExample (Some [chunk_ignored]) None]
             eq_refl eq_refl eq_refl eq_refl eq_refl).
  - vm_compute. reflexivity.
  - constructor; [|constructor; [|constructor]].
    + exists [chunk_book; chunk_flight]. split; [reflexivity|].
      exact well_formed_book_flight.
    + exists [chunk_ignored]. split; [reflexivity|].
      constructor; [exact well_formed_ignored|constructor].
Defined.

Lemma read_root_failure (w : Externals) (fn : string) (kwargs : dict)
    (language fformat : string) (e : exn) :
  kwargs !! "language" = Some language ->
  kwargs !! "fformat" = Some fformat ->
  recognized fformat ->
  read_root_json w fn = Raise e ->
  read w fn kwargs = ([EvReadJson fn], Raise e).
Proof.
  intros Hl Hf Hrec Hroot.
  unfold read, read_json_file_root, bind, lift, raise, tell.
  rewrite (getitem_Some _ _ _ Hl), (getitem_Some _ _ _ Hf). cbn.
  rewrite (recognized_check fformat Hrec), Hroot. reflexivity.
Qed.

Lemma read_no_language (w : Externals) (fn : string) (kwargs : dict) :
  kwargs !! "language" = None ->
  read w fn kwargs = ([], Raise (KeyError "language")).
Proof. intros Hl. unfold read, bind, lift, getitem. rewrite Hl. reflexivity. Qed.

Lemma read_no_fformat (w : Externals) (fn : string) (kwargs : dict) :
  is_Some (kwargs !! "language") -> kwargs !! "fformat" = None ->
  read w fn kwargs = ([], Raise (KeyError "fformat")).
Proof.
  intros [language Hl] Hf. unfold read, bind, lift, getitem.
  rewrite Hl, Hf. reflexivity.
Qed.

Lemma read_unsupported (w : Externals) (fn : string) (kwargs : dict)
    (language fformat : string) :
  kwargs !! "language" = Some language ->
  kwargs !! "fformat" = Some fformat ->
  fformat <> DIALOGFLOW_INTENT -> fformat <> DIALOGFLOW_ENTITIES ->
  read w fn kwargs = ([], Raise (ValueError unsupported_format_message)).
Proof.
  intros Hl Hf Hi He. unfold read, bind, lift, raise.
  rewrite (getitem_Some _ _ _ Hl), (getitem_Some _ _ _ Hf). cbn.
  apply String.eqb_neq in Hi. apply String.eqb_neq in He.
  rewrite Hi, He. reflexivity.
Qed.

(** X15. A failure to read a file goes to the caller as it is and without
    a warning: when the root file cannot be read the examples file is not
    even looked for, and when the examples file is there but cannot be read
    no batch is returned. *)
Theorem read_failures_propagate (w : Externals) (fn : string) (kwargs : dict)
    (language fformat : string) (e : exn) :
  kwargs !! "language" = Some language ->
  kwargs !! "fformat" = Some fformat ->
  recognized fformat ->
  (read_root_json w fn = Raise e ->
     read w fn kwargs = ([EvReadJson fn], Raise e)) /\
  (forall root_js,
     read_root_json w fn = Return root_js ->
     isfile w (examples_fn fn language fformat) = true ->
     read_examples_json w (examples_fn fn language fformat) = Raise e ->
     read w fn kwargs =
       ([EvReadJson fn;
         EvIsFile (examples_fn fn language fformat);
         EvReadJson (examples_fn fn language fformat)], Raise e)).
Proof.
  intros Hl Hf Hrec. split.
  - apply (read_root_failure w fn kwargs language fformat e Hl Hf Hrec).
  - intros root_js Hroot Hfile Hex.
    rewrite (read_recognized w fn kwargs language fformat root_js Hl Hf Hrec Hroot).
    cbv zeta. rewrite Hfile, Hex. reflexivity.
Qed.

Lemma read_failures_propagate_witness :
  read no_files "greet.json" kwargs_intent_en =
    ([EvReadJson "greet.json"], Raise (ReadError 2)) /\
  read greet_broken_examples "greet.json" kwargs_intent_en =
    ([EvReadJson "greet.json"; EvIsFile "greet_usersays_en.json";
      EvReadJson "greet_usersays_en.json"], Raise (ReadError 3)).
Proof.
  split.
  - apply (proj1 (read_failures_propagate no_files "greet.json" kwargs_intent_en
                    "en" DIALOGFLOW_INTENT (ReadError 2)
                    eq_refl eq_refl (or_introl eq_refl))).
    reflexivity.
  - apply (proj2 (read_failures_propagate greet_broken_examples "greet.json"
                    kwargs_intent_en "en" DIALOGFLOW_INTENT (ReadError 3)
                    eq_refl eq_refl (or_introl eq_refl))
             {[ "name" := "greet" ]}); reflexivity.
Defined.

(** X16. A call of [read] without the keyword [language], or with it but
    without [fformat], raises the [KeyError] of the missing keyword before
    the format is checked and before any file is touched; [language] is
    asked for first. *)
Theorem read_missing_keyword (w : Externals) (fn : string) (kwargs : dict) :
  (kwargs !! "language" = None ->
     read w fn kwargs = ([], Raise (KeyError "language"))) /\
  (is_Some (kwargs !! "language") -> kwargs !! "fformat" = None ->
     read w fn kwargs = ([], Raise (KeyError "fformat"))).
Proof.
  split; [apply read_no_language|apply read_no_fformat].
Qed.

Lemma read_missing_keyword_witness :
  read no_files "greet.json" kwargs_no_language = ([], Raise (KeyError "language")) /\
  read no_files "greet.json" kwargs_no_fformat = ([], Raise (KeyError "fformat")).
Proof.
  split.
  - apply (proj1 (read_missing_keyword no_files "greet.json" kwargs_no_language)).
    reflexivity.
  - apply (proj2 (read_missing_keyword no_files "greet.json" kwargs_no_fformat)).
    + exists "en". reflexivity.
    + reflexivity.
Defined.

(** [read] in full, by cases. *)
Lemma read_cases (w : Externals) (fn : string) (kwargs : dict) :
  (exists k, read w fn kwargs = ([], Raise (KeyError k))) \/
  read w fn kwargs = ([], Raise (ValueError unsupported_format_message)) \/
  (exists language fformat,
     kwargs !! "language" = Some language /\ kwargs !! "fformat" = Some fformat /\
     recognized fformat /\
     ((exists e, read w fn kwargs = ([EvReadJson fn], Raise e)) \/
      (exists root_js, read_root_json w fn = Return root_js /\
         read w fn kwargs =
           let efn := examples_fn fn language fformat in
           if isfile w efn then
             match read_examples_json w efn with
             | Return [] =>
                 ([EvReadJson fn; EvIsFile efn; EvReadJson efn;
                   EvWarn (no_examples_message fn)], Return TrainingData_empty)
             | Return (ex :: examples) =>
                 ([EvReadJson fn; EvIsFile efn; EvReadJson efn],
                  if String.eqb fformat DIALOGFLOW_INTENT
                  then _read_intent root_js (ex :: examples)
                  else Return (_read_entities w root_js (ex :: examples)))
             | Raise e => ([EvReadJson fn; EvIsFile efn; EvReadJson efn], Raise e)
             end
           else
             ([EvReadJson fn; EvIsFile efn; EvWarn (no_examples_message fn)],
              Return TrainingData_empty)))).
Proof.
  destruct (kwargs !! "language") as [language|] eqn:Hl.
  2: { left. exists "language".
       apply (read_no_language w fn kwargs Hl). }
  destruct (kwargs !! "fformat") as [fformat|] eqn:Hf.
  2: { left. exists "fformat".
       apply (read_no_fformat w fn kwargs); [rewrite Hl; eauto|exact Hf]. }
  destruct (String.eqb_spec fformat DIALOGFLOW_INTENT) as [Hi|Hi].
  - right. right. exists language, fformat.
    assert (Hrec : recognized fformat) by (left; exact Hi).
    repeat split; try assumption.
    destruct (read_root_json w fn) as [root_js|e] eqn:Hroot.
    + right. exists root_js. split; [reflexivity|].
      apply (read_recognized w fn kwargs language fformat root_js Hl Hf Hrec Hroot).
    + left. exists e.
      apply (read_root_failure w fn kwargs language fformat e Hl Hf Hrec Hroot).
  - destruct (String.eqb_spec fformat DIALOGFLOW_ENTITIES) as [He|He].
    + right. right. exists language, fformat.
      assert (Hrec : recognized fformat) by (right; exact He).
      repeat split; try assumption.
      destruct (read_root_json w fn) as [root_js|e] eqn:Hroot.
      * right. exists root_js. split; [reflexivity|].
        apply (read_recognized w fn kwargs language fformat root_js Hl Hf Hrec Hroot).
      * left. exists e.
        apply (read_root_failure w fn kwargs language fformat e Hl Hf Hrec Hroot).
    + right. left.
      apply (read_unsupported w fn kwargs language fformat Hl Hf Hi He).
Qed.


Lemma read_accesses (w : Externals) (fn : string) (kwargs : dict) :
  accesses (trace (read w fn kwargs)) = [] \/
  exists language fformat,
    kwargs !! "language" = Some language /\ kwargs !! "fformat" = Some fformat /\
    (accesses (trace (read w fn kwargs)) = [fn] \/
     accesses (trace (read w fn kwargs)) = [fn; examples_fn fn language fformat] \/
     accesses (trace (read w fn kwargs)) =
       [fn; examples_fn fn language fformat; examples_fn fn language fformat]).
Proof.
  destruct (read_cases w fn kwargs)
    as [[k H]|[H|(language & fformat & Hl & Hf & Hrec & [[e H]|(root_js & Hroot & H)])]];
    rewrite H.
  - left. reflexivity.
  - left. reflexivity.
  - right. exists language, fformat. repeat split; try assumption. left. reflexivity.
  - right. exists language, fformat. repeat split; try assumption. cbv zeta.
    destruct (isfile w (examples_fn fn language fformat)).
    + destruct (read_examples_json w (examples_fn fn language fformat))
        as [[|ex examples]|x]; right; right; reflexivity.
    + right. left. reflexivity.
Qed.




(** *** Root paths without [.json] *)

Lemma replace_no_occurrence (new s : string) :
  str_in ".json" s = false -> replace s ".json" new = s.
Proof.
  unfold replace. induction s as [|c s IH]; intros Hin; [reflexivity|].
  cbn [str_in] in Hin. apply orb_false_iff in Hin. destruct Hin as [Hp Hs].
  cbn [replace_from]. rewrite Hp, (IH Hs). reflexivity.
Qed.

(** X19. For a root path that holds no [.json], the path of the examples
    file is the root path itself: [read] then touches the root file only,
    which it looks for and reads again as its own examples file. *)
Theorem examples_fn_without_json (w : Externals) (fn : string) (kwargs : dict)
    (language fformat : string) :
  str_in ".json" fn = false ->
  kwargs !! "language" = Some language ->
  kwargs !! "fformat" = Some fformat ->
  examples_fn fn language fformat = fn /\
  Forall (fun p => p = fn) (accesses (trace (read w fn kwargs))).
Proof.
  intros Hin Hl Hf.
  assert (Hfn : examples_fn fn language fformat = fn).
  { unfold examples_fn. apply replace_no_occurrence, Hin. }
  split; [exact Hfn|].
  destruct (read_accesses w fn kwargs) as [H|(l' & f' & Hl' & Hf' & H)].
  - rewrite H. constructor.
  - rewrite Hl in Hl'. rewrite Hf in Hf'. inversion Hl'; inversion Hf'; subst l' f'.
    rewrite Hfn in H.
    destruct H as [H|[H|H]]; rewrite H; repeat constructor.
Qed.

Lemma examples_fn_without_json_witness :
  examples_fn "greet" "en" DIALOGFLOW_INTENT = "greet" /\
  accesses (trace (read bare_export "greet" kwargs_intent_en)) =
    ["greet"; "greet"; "greet"].
Proof.
  split.
  - apply (proj1 (examples_fn_without_json bare_export "greet" kwargs_intent_en
                    "en" DIALOGFLOW_INTENT eq_refl eq_refl eq_refl)).
  - vm_compute. reflexivity.
Defined.

(** *** Lookup tables *)

Lemma table_elements_extract (name : option string) (examples : list example_js) :
  table_elements (_extract_lookup_tables name examples) =
    filter (fun synonym => negb (str_in "@" synonym) = true)
      (concat (omap ex_synonyms examples)).
Proof.
  unfold _extract_lookup_tables, _flatten, table_elements.
  destruct (filter _ (concat (omap ex_synonyms examples))) as [|s l]; cbn;
    [reflexivity|].
  rewrite app_nil_r. reflexivity.
Qed.

Lemma omap_app_list {A B} (f : A -> option B) (l1 l2 : list A) :
  omap f (l1 ++ l2) = omap f l1 ++ omap f l2.
Proof.
  induction l1 as [|a l1 IH]; cbn; [reflexivity|].
  rewrite IH. destruct (f a); reflexivity.
Qed.

(** X20. The lookup table keeps every synonym value without [@] in the
    order of the records, duplicates included: the elements for the
    records [a ++ b] are the elements for [a] followed by those for [b];
    none of them holds an [@]; and a table that is made is never empty and
    carries the given name. *)
Theorem lookup_table_elements_app (name : option string) (a b : list example_js) :
  table_elements (_extract_lookup_tables name (a ++ b)) =
    table_elements (_extract_lookup_tables name a) ++
    table_elements (_extract_lookup_tables name b) /\
  Forall (fun s => str_in "@" s = false)
    (table_elements (_extract_lookup_tables name a)) /\
  (forall tables, _extract_lookup_tables name a = Some tables ->
     exists elements, tables = [mkLookup name elements] /\ elements <> []).
Proof.
  split; [|split].
  - rewrite !table_elements_extract, omap_app_list, concat_app, filter_app.
    reflexivity.
  - rewrite table_elements_extract. apply Forall_forall. intros s Hs.
    apply list_elem_of_filter in Hs. destruct Hs as [Hs _].
    apply negb_true_iff in Hs. exact Hs.
  - unfold _extract_lookup_tables.
    destruct (filter _ (_flatten (omap ex_synonyms a))) as [|s l];
      intros tables H; inversion H; subst.
    eexists. split; [reflexivity|]. intros H'. discriminate H'.
Qed.

End DialogflowProofs.
